(** * Task model, stamping rule and sync-activity generation

    A shallow embedding of
    - [service/history/tasks/child_workflow_task.go]
      ([StartChildExecutionTask] and its methods),
    - the helpers [convertSyncActivityInfos] and [setTaskInfo] of package
      [workflow], and
    - the [ShardReplicationStatus] messages of
      [historyservice/v1/request_response.proto], and
    - the configuration of the metrics reporters in
      [common/metrics/config.go].

    Go values are modelled as follows.  [int64] and [int32] are [Z] (the code
    below only stores and copies them, it never does arithmetic on them).
    A [time.Time] is the instant it denotes, in nanoseconds since the Unix
    epoch.  A Go [map] is a [gmap], a [map[K]struct{}] is a [gset].  A [Task]
    interface value is a reference into a heap of task objects: methods with
    pointer receivers read and write that heap, and calling a method through
    a reference that designates no object (Go's [nil]) panics. *)

From stdpp Require Import base option list gmap strings fin_maps fin_sets.
From Stdlib Require Import Floats.PrimFloat.

Local Open Scope Z_scope.

(** ** Package [time] *)

Module time.

(** An instant, as nanoseconds since January 1, 1970 UTC. *)
Definition Time : Type := Z.

(** [time.Unix(sec, nsec)]. *)
Definition Unix (sec nsec : Z) : Time := sec * 1000000000 + nsec.

End time.

(** ** Package [definition] *)

Module definition.

(** Modelled from the spec: the declaration of [definition.WorkflowKey] is not
    among the sources; the spec gives it as (namespace ID, workflow ID,
    run ID). *)
Record WorkflowKey : Type := NewWorkflowKey {
  NamespaceID : string;
  WorkflowID : string;
  RunID : string;
}.

End definition.

(** ** Package [tasks] *)

Module tasks.

(** Modelled from the spec: [CategoryType], [Category] and the well-known
    categories are declared outside the sources.  The spec gives a category
    as the value object {Name, Type ∈ {Immediate, Scheduled}, ID}, with
    Transfer and Replication of type Immediate and Timer of type Scheduled.
    The numeric IDs and the names below are only there to tell the
    categories apart; no statement depends on their values. *)
Inductive CategoryType : Type :=
| CategoryTypeImmediate
| CategoryTypeScheduled.

(** Modelled from the spec: the value object {Name, Type, ID}. *)
Record Category : Type := NewCategory {
  ID : Z;
  cType : CategoryType;
  Name : string;
}.

(** Modelled from the spec: the method [Category.Type()], which exposes the
    processing type of the category. *)
Definition Category_Type (c : Category) : CategoryType := cType c.

(** Modelled from the spec: the well-known category Transfer, of type
    Immediate. *)
Definition CategoryTransfer : Category :=
  {| ID := 1; cType := CategoryTypeImmediate; Name := "transfer" |}.

(** Modelled from the spec: the well-known category Timer, of type
    Scheduled. *)
Definition CategoryTimer : Category :=
  {| ID := 2; cType := CategoryTypeScheduled; Name := "timer" |}.

(** Modelled from the spec: the well-known category Replication, of type
    Immediate. *)
Definition CategoryReplication : Category :=
  {| ID := 3; cType := CategoryTypeImmediate; Name := "replication" |}.

#[global] Instance CategoryType_eq_dec : EqDecision CategoryType.
Proof. solve_decision. Defined.

#[global] Instance Category_eq_dec : EqDecision Category.
Proof. solve_decision. Defined.

#[global] Instance CategoryType_countable : Countable CategoryType.
Proof.
  refine (inj_countable'
    (λ ty, match ty with
           | CategoryTypeImmediate => true
           | CategoryTypeScheduled => false
           end)
    (λ b : bool, if b then CategoryTypeImmediate else CategoryTypeScheduled) _).
  by intros [].
Defined.

#[global] Instance Category_countable : Countable Category.
Proof.
  refine (inj_countable'
    (λ c, (ID c, cType c, Name c))
    (λ '(i, ty, n), {| ID := i; cType := ty; Name := n |}) _).
  by intros [].
Defined.

(** The ordering key of a task.  The struct is declared outside the sources;
    its two fields are those of the composite literal in [GetKey]. *)
Record Key : Type := NewKey {
  FireTime : time.Time;
  TaskID : Z;
}.

(** The interface [Task]: the capability set every task variant answers.
    A setter has a pointer receiver; as a function on the struct it returns
    the struct after the assignment. *)
Class Task (A : Type) : Type := {
  GetKey : A → Key;
  GetVersion : A → Z;
  SetVersion : Z → A → A;
  GetTaskID : A → Z;
  SetTaskID : Z → A → A;
  GetVisibilityTime : A → time.Time;
  SetVisibilityTime : time.Time → A → A;
  GetCategory : A → Category;
}.

(** *** [StartChildExecutionTask] *)

Module StartChildExecutionTask.

Record t : Type := New {
  WorkflowKey : definition.WorkflowKey;
  VisibilityTimestamp : time.Time;
  TaskID : Z;
  TargetNamespaceID : string;
  TargetWorkflowID : string;
  InitiatedID : Z;
  Version : Z;
}.

Definition GetKey (u : t) : Key :=
  {| FireTime := time.Unix 0 0;
     tasks.TaskID := TaskID u |}.

Definition GetVersion (u : t) : Z := Version u.

Definition SetVersion (version : Z) (u : t) : t :=
  {| WorkflowKey := WorkflowKey u;
     VisibilityTimestamp := VisibilityTimestamp u;
     TaskID := TaskID u;
     TargetNamespaceID := TargetNamespaceID u;
     TargetWorkflowID := TargetWorkflowID u;
     InitiatedID := InitiatedID u;
     Version := version |}.

Definition GetTaskID (u : t) : Z := TaskID u.

Definition SetTaskID (id : Z) (u : t) : t :=
  {| WorkflowKey := WorkflowKey u;
     VisibilityTimestamp := VisibilityTimestamp u;
     TaskID := id;
     TargetNamespaceID := TargetNamespaceID u;
     TargetWorkflowID := TargetWorkflowID u;
     InitiatedID := InitiatedID u;
     Version := Version u |}.

Definition GetVisibilityTime (u : t) : time.Time := VisibilityTimestamp u.

Definition SetVisibilityTime (timestamp : time.Time) (u : t) : t :=
  {| WorkflowKey := WorkflowKey u;
     VisibilityTimestamp := timestamp;
     TaskID := TaskID u;
     TargetNamespaceID := TargetNamespaceID u;
     TargetWorkflowID := TargetWorkflowID u;
     InitiatedID := InitiatedID u;
     Version := Version u |}.

Definition GetCategory (u : t) : Category := CategoryTransfer.

(** [var _ Task = ( *StartChildExecutionTask)(nil)] *)
#[global] Instance implements_Task : Task t := {|
  tasks.GetKey := GetKey;
  tasks.GetVersion := GetVersion;
  tasks.SetVersion := SetVersion;
  tasks.GetTaskID := GetTaskID;
  tasks.SetTaskID := SetTaskID;
  tasks.GetVisibilityTime := GetVisibilityTime;
  tasks.SetVisibilityTime := SetVisibilityTime;
  tasks.GetCategory := GetCategory;
|}.

End StartChildExecutionTask.

(** *** The other task variants *)

Module OtherTask.

(** Modelled from the spec: the task variants other than
    [StartChildExecutionTask] (timer tasks, replication tasks, ...) are
    declared outside the sources.  Following the spec's contract for the
    capability set, such a variant carries its workflow key, the three
    settable fields and a category-specific payload that no method below
    interprets; [GetCategory] answers the fixed category of the variant;
    each setter assigns its own field; [GetKey] is (epoch-zero, TaskID) for an
    Immediate category and (VisibilityTimestamp, TaskID) for a Scheduled
    one. *)
Record t : Type := New {
  Category : tasks.Category;
  WorkflowKey : definition.WorkflowKey;
  VisibilityTimestamp : time.Time;
  TaskID : Z;
  Version : Z;
  Payload : list (string * Z);
}.

(** Modelled from the spec: [GetKey()] for Immediate categories returns
    (epoch-zero, TaskID); for Scheduled categories it returns
    (VisibilityTimestamp, TaskID). *)
Definition GetKey (u : t) : Key :=
  match Category_Type (Category u) with
  | CategoryTypeImmediate =>
      {| FireTime := time.Unix 0 0; tasks.TaskID := TaskID u |}
  | CategoryTypeScheduled =>
      {| FireTime := VisibilityTimestamp u; tasks.TaskID := TaskID u |}
  end.

(** Modelled from the spec: the getters and setters of the capability set,
    with no effect beyond the mutated field. *)
Definition GetVersion (u : t) : Z := Version u.

Definition SetVersion (version : Z) (u : t) : t :=
  {| Category := Category u;
     WorkflowKey := WorkflowKey u;
     VisibilityTimestamp := VisibilityTimestamp u;
     TaskID := TaskID u;
     Version := version;
     Payload := Payload u |}.

Definition GetTaskID (u : t) : Z := TaskID u.

Definition SetTaskID (id : Z) (u : t) : t :=
  {| Category := Category u;
     WorkflowKey := WorkflowKey u;
     VisibilityTimestamp := VisibilityTimestamp u;
     TaskID := id;
     Version := Version u;
     Payload := Payload u |}.

Definition GetVisibilityTime (u : t) : time.Time := VisibilityTimestamp u.

Definition SetVisibilityTime (timestamp : time.Time) (u : t) : t :=
  {| Category := Category u;
     WorkflowKey := WorkflowKey u;
     VisibilityTimestamp := timestamp;
     TaskID := TaskID u;
     Version := Version u;
     Payload := Payload u |}.

Definition GetCategory (u : t) : tasks.Category := Category u.

#[global] Instance implements_Task : Task t := {|
  tasks.GetKey := GetKey;
  tasks.GetVersion := GetVersion;
  tasks.SetVersion := SetVersion;
  tasks.GetTaskID := GetTaskID;
  tasks.SetTaskID := SetTaskID;
  tasks.GetVisibilityTime := GetVisibilityTime;
  tasks.SetVisibilityTime := SetVisibilityTime;
  tasks.GetCategory := GetCategory;
|}.

End OtherTask.

(** *** [SyncActivityTask] *)

Module SyncActivityTask.

(** The struct is declared outside the sources.  Its fields are the four of
    the composite literal in [convertSyncActivityInfos], and [TaskID], which
    the capability set requires and which that literal leaves at Go's zero
    value. *)
Record t : Type := New {
  WorkflowKey : definition.WorkflowKey;
  VisibilityTimestamp : time.Time;
  TaskID : Z;
  Version : Z;
  ScheduledID : Z;
}.

End SyncActivityTask.

(** *** Task objects and the heap *)

(** The dynamic type behind a [Task] interface value: a closed sum over the
    variants, with the interface methods dispatched on the constructor. *)
Inductive object : Type :=
| StartChildExecution (u : StartChildExecutionTask.t)
| Other (u : OtherTask.t).

#[global] Instance object_Task : Task object := {|
  GetKey o :=
    match o with
    | StartChildExecution u => GetKey u
    | Other u => GetKey u
    end;
  GetVersion o :=
    match o with
    | StartChildExecution u => GetVersion u
    | Other u => GetVersion u
    end;
  SetVersion version o :=
    match o with
    | StartChildExecution u => StartChildExecution (SetVersion version u)
    | Other u => Other (SetVersion version u)
    end;
  GetTaskID o :=
    match o with
    | StartChildExecution u => GetTaskID u
    | Other u => GetTaskID u
    end;
  SetTaskID id o :=
    match o with
    | StartChildExecution u => StartChildExecution (SetTaskID id u)
    | Other u => Other (SetTaskID id u)
    end;
  GetVisibilityTime o :=
    match o with
    | StartChildExecution u => GetVisibilityTime u
    | Other u => GetVisibilityTime u
    end;
  SetVisibilityTime timestamp o :=
    match o with
    | StartChildExecution u => StartChildExecution (SetVisibilityTime timestamp u)
    | Other u => Other (SetVisibilityTime timestamp u)
    end;
  GetCategory o :=
    match o with
    | StartChildExecution u => GetCategory u
    | Other u => GetCategory u
    end;
|}.

(** A reference to a task object: the value of a [Task] interface variable.
    Two occurrences of the same reference designate the same object. *)
Abbreviation ref := positive.

(** The heap of task objects.  A reference outside its domain designates no
    object, as Go's [nil] does. *)
Abbreviation heap := (gmap positive object).

(** Go code acting on the heap: it panics ([None]) or returns a result and
    the heap it leaves behind. *)
Definition Go (A : Type) : Type := heap → option (A * heap).

#[global] Instance Go_ret : MRet Go := λ A (a : A) (h : heap), Some (a, h).

#[global] Instance Go_bind : MBind Go :=
  λ A B (k : A → Go B) (m : Go A) (h : heap),
    match m h with
    | Some (a, h') => k a h'
    | None => None
    end.

(** [for _, x := range xs { body x }] over a slice. *)
Fixpoint for_range {A : Type} (xs : list A) (body : A → Go unit) : Go unit :=
  match xs with
  | [] => mret ()
  | x :: xs' => body x ;; for_range xs' body
  end.

(** Calling a method that only reads its receiver, through reference [task]. *)
Definition call_getter {A : Type} (method : object → A) (task : ref) : Go A :=
  λ h, match h !! task with
       | Some o => Some (method o, h)
       | None => None
       end.

(** Calling a method that assigns to a field of its receiver. *)
Definition call_setter (method : object → object) (task : ref) : Go unit :=
  λ h, match h !! task with
       | Some o => Some ((), <[task := method o]> h)
       | None => None
       end.

Definition call_GetKey (task : ref) : Go Key := call_getter GetKey task.
Definition call_GetVersion (task : ref) : Go Z := call_getter GetVersion task.
Definition call_SetVersion (task : ref) (version : Z) : Go unit :=
  call_setter (SetVersion version) task.
Definition call_GetTaskID (task : ref) : Go Z := call_getter GetTaskID task.
Definition call_SetTaskID (task : ref) (id : Z) : Go unit :=
  call_setter (SetTaskID id) task.
Definition call_GetVisibilityTime (task : ref) : Go time.Time :=
  call_getter GetVisibilityTime task.
Definition call_SetVisibilityTime (task : ref) (timestamp : time.Time) : Go unit :=
  call_setter (SetVisibilityTime timestamp) task.
Definition call_GetCategory (task : ref) : Go Category :=
  call_getter GetCategory task.

End tasks.

(** ** Package [persistencespb] *)

Module persistencespb.

(** The generated message [ActivityInfo] is declared outside the sources; of
    its fields, only the two that [convertSyncActivityInfos] reads are kept. *)
Record ActivityInfo : Type := NewActivityInfo {
  Version : Z;
  ScheduleId : Z;
}.

End persistencespb.

(** ** Package [workflow] *)

Module workflow.

Import tasks.

(** Go leaves the order of a [range] over a map unspecified: the loop visits
    every entry once, in some order. *)
Definition range_of `{Countable K} {A : Type}
    (m : gmap K A) (entries : list (K * A)) : Prop :=
  entries ≡ₚ map_to_list m.

Definition range_of_set `{Countable K}
    (s : gset K) (items : list K) : Prop :=
  items ≡ₚ elements s.

(** The loop of [convertSyncActivityInfos], visiting the pending IDs in the
    order [items].  [outputs] starts empty ([make([]tasks.Task, 0, n)] has
    length 0) and grows by [append].  The snapshot maps an ID to the
    activity's message; a [nil] pointer stored as a map value is not
    modelled. *)
Definition convertSyncActivityInfos_range
    (now : time.Time)
    (workflowKey : definition.WorkflowKey)
    (activityInfos : gmap Z persistencespb.ActivityInfo)
    (items : list Z) : list SyncActivityTask.t :=
  foldl (λ outputs item,
    match activityInfos !! item with
    | Some activityInfo =>
        outputs ++ [ {| SyncActivityTask.WorkflowKey := workflowKey;
                        SyncActivityTask.Version := persistencespb.Version activityInfo;
                        SyncActivityTask.ScheduledID := persistencespb.ScheduleId activityInfo;
                        SyncActivityTask.VisibilityTimestamp := now;
                        SyncActivityTask.TaskID := 0 |} ]
    | None => outputs
    end) [] items.

(** [convertSyncActivityInfos].  Every element of the returned slice is a
    freshly allocated [SyncActivityTask], referenced from nowhere else, so the
    slice is given by the structs themselves. *)
Definition convertSyncActivityInfos
    (now : time.Time)
    (workflowKey : definition.WorkflowKey)
    (activityInfos : gmap Z persistencespb.ActivityInfo)
    (inputs : gset Z) : list SyncActivityTask.t :=
  convertSyncActivityInfos_range now workflowKey activityInfos (elements inputs).

(** The task that the loop body appends for the activity [activityInfo]. *)
Definition sync_task_of
    (now : time.Time) (workflowKey : definition.WorkflowKey)
    (activityInfo : persistencespb.ActivityInfo) : SyncActivityTask.t :=
  {| SyncActivityTask.WorkflowKey := workflowKey;
     SyncActivityTask.Version := persistencespb.Version activityInfo;
     SyncActivityTask.ScheduledID := persistencespb.ScheduleId activityInfo;
     SyncActivityTask.VisibilityTimestamp := now;
     SyncActivityTask.TaskID := 0 |}.

(** The pending IDs that the snapshot knows, in the order they are visited. *)
Definition present_items
    (activityInfos : gmap Z persistencespb.ActivityInfo)
    (items : list Z) : list Z :=
  filter (λ item, is_Some (activityInfos !! item)) items.

(** The loops of [setTaskInfo], visiting the entries of the map in the order
    [entries]. *)
Definition setTaskInfo_range
    (version : Z)
    (timestamp : time.Time)
    (entries : list (Category * list ref)) : Go unit :=
  for_range entries (λ '(category, tasksByCategory),
    if decide (category = CategoryReplication) then
      mret ()
    else
      for_range tasksByCategory (λ task,
        call_SetVersion task version ;;
        if decide (Category_Type category = CategoryTypeImmediate) then
          call_SetVisibilityTime task timestamp
        else
          mret ())).

(** [setTaskInfo]. *)
Definition setTaskInfo
    (version : Z)
    (timestamp : time.Time)
    (insertTasks : gmap Category (list ref)) : Go unit :=
  setTaskInfo_range version timestamp (map_to_list insertTasks).

(** *** Well-formed inputs of [setTaskInfo] *)

(** Every reference listed in the map designates a task object (no [nil]
    task is filed). *)
Definition live (h : heap) (insertTasks : gmap Category (list ref)) : Prop :=
  map_Forall (λ _ tasksByCategory,
    Forall (λ task, is_Some (h !! task)) tasksByCategory) insertTasks.

(** The map files every task under the category the task itself reports:
    the list under key [category] holds references to objects whose
    [GetCategory()] is [category].  This is what makes the map an insert-task
    map, a grouping of tasks by category. *)
Definition filed_by_category
    (h : heap) (insertTasks : gmap Category (list ref)) : Prop :=
  map_Forall (λ category tasksByCategory,
    Forall (λ task, GetCategory <$> h !! task = Some category)
           tasksByCategory) insertTasks.

#[global] Instance live_dec h insertTasks : Decision (live h insertTasks).
Proof. unfold live. apply _. Defined.

#[global] Instance filed_by_category_dec h insertTasks :
  Decision (filed_by_category h insertTasks).
Proof. unfold filed_by_category. apply _. Defined.

(** *** The effect of [setTaskInfo] on one object *)

(** One pass of the inner loop's body over an object of category
    [category]. *)
Definition stamp
    (version : Z) (timestamp : time.Time) (category : Category)
    (o : object) : object :=
  let o' := SetVersion version o in
  if decide (Category_Type category = CategoryTypeImmediate) then
    SetVisibilityTime timestamp o'
  else
    o'.

(** What the inner loop over [tasksByCategory] does to the object that
    [task] designates: one [stamp] per occurrence of [task] in the slice. *)
Definition stamp_occurrences
    (version : Z) (timestamp : time.Time) (category : Category)
    (task : ref) (tasksByCategory : list ref) (o : object) : object :=
  foldl (λ o task', if decide (task' = task)
                    then stamp version timestamp category o else o)
        o tasksByCategory.

(** What the visit of one map entry does to that object. *)
Definition visit
    (version : Z) (timestamp : time.Time) (task : ref)
    (o : object) (entry : Category * list ref) : object :=
  if decide (entry.1 = CategoryReplication) then o
  else stamp_occurrences version timestamp entry.1 task entry.2 o.

(** *** The outcome of [setTaskInfo] on one object, in closed form *)

(** The object [o] after [SetVersion(version)] if [versioned], and after
    [SetVisibilityTime(timestamp)] if [timed]. *)
Definition stamped
    (version : Z) (timestamp : time.Time) (versioned timed : bool)
    (o : object) : object :=
  let o' := if versioned then SetVersion version o else o in
  if timed then SetVisibilityTime timestamp o' else o'.

(** [task] occurs in one of the visited entries that the loop does not
    skip. *)
Definition listed (task : ref) (entries : list (Category * list ref)) : bool :=
  existsb (λ entry : Category * list ref,
             bool_decide (entry.1 ≠ CategoryReplication)
             && bool_decide (task ∈ entry.2)) entries.

(** [task] occurs in such an entry whose category is of type Immediate. *)
Definition listed_immediate
    (task : ref) (entries : list (Category * list ref)) : bool :=
  existsb (λ entry : Category * list ref,
             bool_decide (entry.1 ≠ CategoryReplication)
             && bool_decide (Category_Type entry.1 = CategoryTypeImmediate)
             && bool_decide (task ∈ entry.2)) entries.

(** No task outside the Replication category is [nil]. *)
Definition stampable (h : heap) (entries : list (Category * list ref)) : Prop :=
  Forall (λ entry : Category * list ref,
            entry.1 ≠ CategoryReplication →
            Forall (λ task, is_Some (h !! task)) entry.2) entries.

#[global] Instance stampable_dec h entries : Decision (stampable h entries).
Proof. unfold stampable. apply _. Defined.

End workflow.

(** ** Package [historyservice]: the replication-status messages *)

Module historyservice.

(** A field of type [google.protobuf.Timestamp] marked [stdtime] holds a
    [time.Time], or is unset. *)
Record ShardReplicationStatusPerCluster : Type :=
  NewShardReplicationStatusPerCluster {
    acked_task_id : Z;
    acked_task_visibility_time : option time.Time;
  }.

Record HandoverNamespaceInfo : Type := NewHandoverNamespaceInfo {
  handover_replication_task_id : Z;
}.

Record ShardReplicationStatus : Type := NewShardReplicationStatus {
  shard_id : Z;
  max_replication_task_id : Z;
  shard_local_time : option time.Time;
  remote_clusters : gmap string ShardReplicationStatusPerCluster;
  handover_namespaces : gmap string HandoverNamespaceInfo;
}.

(** The snapshot as the data model of the spec words it:
    {ShardID, MaxReplicationTaskID, ShardLocalTime,
     map[ClusterName]→{AckedTaskID, AckedTaskVisibilityTime},
     map[Namespace]→HandoverInfo},
    where a HandoverInfo is the replication-task ID at which the namespace
    entered hand-over state. *)
Definition HandoverInfo_spec : Type := Z.

Definition ShardReplicationStatus_spec : Type :=
  Z * Z * option time.Time
  * gmap string (Z * option time.Time)
  * gmap string HandoverInfo_spec.

Definition to_spec (s : ShardReplicationStatus) : ShardReplicationStatus_spec :=
  (shard_id s,
   max_replication_task_id s,
   shard_local_time s,
   (λ c, (acked_task_id c, acked_task_visibility_time c)) <$> remote_clusters s,
   handover_replication_task_id <$> handover_namespaces s).

Definition of_spec (p : ShardReplicationStatus_spec) : ShardReplicationStatus :=
  let '(shardID, maxReplicationTaskID, shardLocalTime, clusters, namespaces) := p in
  {| shard_id := shardID;
     max_replication_task_id := maxReplicationTaskID;
     shard_local_time := shardLocalTime;
     remote_clusters :=
       (λ a, {| acked_task_id := a.1; acked_task_visibility_time := a.2 |})
         <$> clusters;
     handover_namespaces := NewHandoverNamespaceInfo <$> namespaces |}.

End historyservice.

(** ** Sample data *)

Module sample.

Import tasks workflow.

Definition workflowKey : definition.WorkflowKey :=
  {| definition.NamespaceID := "namespace";
     definition.WorkflowID := "workflow";
     definition.RunID := "run" |}.

(** A transfer task [t1], a timer task [t2] and a replication task [t3]. *)
Definition t1 : object :=
  StartChildExecution
    {| StartChildExecutionTask.WorkflowKey := workflowKey;
       StartChildExecutionTask.VisibilityTimestamp := 10;
       StartChildExecutionTask.TaskID := 41;
       StartChildExecutionTask.TargetNamespaceID := "target-namespace";
       StartChildExecutionTask.TargetWorkflowID := "target-workflow";
       StartChildExecutionTask.InitiatedID := 4;
       StartChildExecutionTask.Version := 1 |}.

Definition t2 : object :=
  Other
    {| OtherTask.Category := CategoryTimer;
       OtherTask.WorkflowKey := workflowKey;
       OtherTask.VisibilityTimestamp := 900;
       OtherTask.TaskID := 42;
       OtherTask.Version := 2;
       OtherTask.Payload := [] |}.

Definition t3 : object :=
  Other
    {| OtherTask.Category := CategoryReplication;
       OtherTask.WorkflowKey := workflowKey;
       OtherTask.VisibilityTimestamp := 100;
       OtherTask.TaskID := 43;
       OtherTask.Version := 3;
       OtherTask.Payload := [("first_event_id", 7)] |}.

Definition objects : heap :=
  <[1%positive := t1]> (<[2%positive := t2]> (<[3%positive := t3]> ∅)).

(** {Transfer: [t1], Timer: [t2], Replication: [t3]} *)
Definition insertTasks : gmap Category (list ref) :=
  <[CategoryTransfer := [1%positive]]>
    (<[CategoryTimer := [2%positive]]>
      (<[CategoryReplication := [3%positive]]> ∅)).

(** activityInfos = {5: {Version:7, ScheduleId:5}}, pendingIDs = {5, 9} *)
Definition activityInfos : gmap Z persistencespb.ActivityInfo :=
  {[ 5 := {| persistencespb.Version := 7; persistencespb.ScheduleId := 5 |} ]}.

Definition pendingIDs : gset Z := {[ 5; 9 ]}.

End sample.

(** ** Sample data, continued *)

Module sample_stamped.

Import tasks workflow.

(** The heap that [setTaskInfo] with version 9 and commit time 500 leaves
    for the sample map. *)
Definition objects : heap :=
  match setTaskInfo 9 500 sample.insertTasks sample.objects with
  | Some (_, h') => h'
  | None => ∅
  end.

(** A map whose only key is Replication, with a [nil] task in its slice. *)
Definition replicationOnly : gmap Category (list ref) :=
  {[ CategoryReplication := [3%positive; 99%positive] ]}.

End sample_stamped.

(** ** Go slices written by index *)

Module slice.

(** [xs[i].f = v] for a slice of structs: [assign] is the assignment to the
    field.  An index out of range panics ([None]). *)
Definition assign_at {A : Type}
    (i : nat) (assign : A → A) (xs : list A) : option (list A) :=
  match xs !! i with
  | Some x => Some (<[i := assign x]> xs)
  | None => None
  end.

(** [for i, item := range items { body }], where the body rewrites the
    slice [acc] and may panic; [i] is the index of the first item. *)
Fixpoint range_indexed {A B : Type}
    (i : nat) (items : list A) (body : nat → A → B → option B)
    (acc : B) : option B :=
  match items with
  | [] => Some acc
  | item :: items' =>
      acc' ← body i item acc;
      range_indexed (S i) items' body acc'
  end.

End slice.

(** ** Package [prometheus] of tally *)

Module prometheus.

(** [float64]: an IEEE 754 binary64 number.  The code below copies such
    numbers and never computes with them. *)
Definition float64 : Type := PrimFloat.float.

(** The structs of tally's [prometheus] package are declared outside the
    sources; their fields are those the code assigns. *)
Record HistogramObjective : Type := NewHistogramObjective {
  Upper : float64;
}.

Record SummaryObjective : Type := NewSummaryObjective {
  Percentile : float64;
  AllowedError : float64;
}.

Record Configuration : Type := NewConfiguration {
  HandlerPath : string;
  ListenNetwork : string;
  ListenAddress : string;
  TimerType : string;
  DefaultHistogramBuckets : list HistogramObjective;
  DefaultSummaryObjectives : list SummaryObjective;
  OnError : string;
}.

End prometheus.

(** ** Package [metrics]: the Prometheus configuration *)

Module metrics.

Import slice.

Abbreviation float64 := prometheus.float64.

Record HistogramObjective : Type := NewHistogramObjective {
  Upper : float64;
}.

Record SummaryObjective : Type := NewSummaryObjective {
  Percentile : float64;
  AllowedError : float64;
}.

Record PrometheusConfig : Type := NewPrometheusConfig {
  Framework : string;
  ListenAddress : string;
  DefaultHistogramBoundaries : list float64;
  HandlerPath : string;
  ListenNetwork : string;
  TimerType : string;
  DefaultHistogramBuckets : list HistogramObjective;
  DefaultSummaryObjectives : list SummaryObjective;
  OnError : string;
}.

Definition FrameworkTally : string := "tally".
Definition FrameworkOpentelemetry : string := "opentelemetry".

(** [result] starts as the nil slice and grows by [append]. *)
Definition histogramBoundariesToHistogramObjectives
    (boundaries : list float64) : list prometheus.HistogramObjective :=
  foldl (λ result value,
           result ++ [ {| prometheus.Upper := value |} ])
        [] boundaries.

(** [tally.ValueBuckets(buckets)], a conversion between slice types. *)
Definition histogramBoundariesToValueBuckets
    (buckets : list float64) : list float64 :=
  buckets.

(** [make([]T, n)]: [n] zero values. *)
Definition make_HistogramObjectives (n : nat) : list prometheus.HistogramObjective :=
  replicate n {| prometheus.Upper := 0%float |}.

Definition make_SummaryObjectives (n : nat) : list prometheus.SummaryObjective :=
  replicate n {| prometheus.Percentile := 0%float;
                 prometheus.AllowedError := 0%float |}.

Definition buildHistogramBuckets
    (config : PrometheusConfig) : option (list prometheus.HistogramObjective) :=
  let result : list prometheus.HistogramObjective := [] in
  if decide (0 < length (DefaultHistogramBuckets config))%nat then
    let result :=
      make_HistogramObjectives (length (DefaultHistogramBuckets config)) in
    range_indexed 0 (DefaultHistogramBuckets config)
      (λ i item result,
         assign_at i (λ _, {| prometheus.Upper := Upper item |}) result)
      result
  else if decide (0 < length (DefaultHistogramBoundaries config))%nat then
    Some (histogramBoundariesToHistogramObjectives
            (DefaultHistogramBoundaries config))
  else
    Some result.

Definition convertPrometheusConfigToTally
    (config : PrometheusConfig) : option prometheus.Configuration :=
  let defaultObjectives :=
    make_SummaryObjectives (length (DefaultSummaryObjectives config)) in
  defaultObjectives ←
    range_indexed 0 (DefaultSummaryObjectives config)
      (λ i item defaultObjectives,
         defaultObjectives ←
           assign_at i (λ o, {| prometheus.Percentile := prometheus.Percentile o;
                                prometheus.AllowedError := AllowedError item |})
                     defaultObjectives;
         assign_at i (λ o, {| prometheus.Percentile := Percentile item;
                              prometheus.AllowedError := prometheus.AllowedError o |})
                   defaultObjectives)
      defaultObjectives;
  buckets ← buildHistogramBuckets config;
  Some {| prometheus.HandlerPath := HandlerPath config;
          prometheus.ListenNetwork := ListenNetwork config;
          prometheus.ListenAddress := ListenAddress config;
          prometheus.TimerType := "histogram";
          prometheus.DefaultHistogramBuckets := buckets;
          prometheus.DefaultSummaryObjectives := defaultObjectives;
          prometheus.OnError := OnError config |}.

(** *** Building scopes and reporters *)

(** A [rune] is a code point. *)
Definition rune : Type := Z.

(** [tally.ValidCharacters] and [tally.SanitizeOptions], with the fields the
    composite literals of [sanitizeOptions] set. *)
Record ValidCharacters : Type := NewValidCharacters {
  Ranges : list (rune * rune);
  Characters : list rune;
}.

Record SanitizeOptions : Type := NewSanitizeOptions {
  NameCharacters : ValidCharacters;
  KeyCharacters : ValidCharacters;
  ValueCharacters : ValidCharacters;
  ReplacementCharacter : rune;
}.

Module ClientConfig.

Record t : Type := New {
  Tags : gmap string string;
  ExcludeTags : gmap string (list string);
  Prefix : string;
  PerUnitHistogramBoundaries : gmap string (list float64);
}.

End ClientConfig.

Module StatsdConfig.

Record t : Type := New {
  HostPort : string;
  Prefix : string;
  FlushInterval : Z;
  FlushBytes : Z;
}.

End StatsdConfig.

Module ScopeOptions.

(** [tally.ScopeOptions], with the fields that the code sets; a field that a
    composite literal leaves out has Go's zero value.  [SR] and [CSR] are the
    interfaces [tally.StatsReporter] and [tally.CachedStatsReporter]. *)
Record t (SR CSR : Type) : Type := New {
  Tags : gmap string string;
  Prefix : string;
  Reporter : option SR;
  CachedReporter : option CSR;
  Separator : string;
  SanitizeOptions : option metrics.SanitizeOptions;
  DefaultBuckets : list float64;
}.

Arguments New {SR CSR}.
Arguments Tags {SR CSR}.
Arguments Prefix {SR CSR}.
Arguments Reporter {SR CSR}.
Arguments CachedReporter {SR CSR}.
Arguments Separator {SR CSR}.
Arguments SanitizeOptions {SR CSR}.
Arguments DefaultBuckets {SR CSR}.

End ScopeOptions.

(** *** Logging and the ways a call ends *)

Inductive Level : Type := LevelError | LevelFatal.

(** A [tally.BaseStatsReporter] in the sense of the type switch of
    [NewCustomReporterScope], which takes the first case that matches:
    a [tally.StatsReporter] ([SR]), else a [tally.CachedStatsReporter]
    ([CSR]), else neither. *)
Inductive BaseStatsReporter (SR CSR : Type) : Type :=
| IsStatsReporter (reporter : SR)
| IsCachedStatsReporter (reporter : CSR)
| IsBaseOnly.

Arguments IsStatsReporter {SR CSR}.
Arguments IsCachedStatsReporter {SR CSR}.
Arguments IsBaseOnly {SR CSR}.

(** [tag.Error(err)] and [tag.ValueType(v)]; [E] is Go's [error]. *)
Inductive Tag (E SR CSR : Type) : Type :=
| tag_Error (err : E)
| tag_ValueType (v : BaseStatsReporter SR CSR).

Arguments tag_Error {E SR CSR}.
Arguments tag_ValueType {E SR CSR}.

Record LogEntry (E SR CSR : Type) : Type := NewLogEntry {
  level : Level;
  msg : string;
  tags : list (Tag E SR CSR);
}.

Arguments NewLogEntry {E SR CSR}.
Arguments level {E SR CSR}.
Arguments msg {E SR CSR}.
Arguments tags {E SR CSR}.

(** How a call ends: it returns, with what it logged; or [logger.Fatal] ends
    the process; or it panics on a [nil] pointer. *)
Inductive Outcome (L A : Type) : Type :=
| Returned (a : A) (log : list L)
| Exited (log : list L)
| Panicked (log : list L).

Arguments Returned {L A}.
Arguments Exited {L A}.
Arguments Panicked {L A}.

(** What [config.go] uses and does not define: the values and functions of
    [tally], [m3], [statsd], [fmt] and of the rest of package [metrics].
    A function that returns a Go pair (value, error) returns a pair here,
    [None] standing for [nil]. *)
Class Collaborators : Type := {
  (** Go's [error] values, [err.Error()] and [fmt.Errorf] *)
  error : Type;
  error_Error : error → string;
  fmt_Errorf : string → list string → error;
  (** [tally.Scope], [tally.NoopScope], the two reporter interfaces *)
  Scope : Type;
  NoopScope : Scope;
  StatsReporter : Type;
  CachedStatsReporter : Type;
  (** [tally.NewRootScope(options, interval)], its closer dropped *)
  tally_NewRootScope :
    ScopeOptions.t StatsReporter CachedStatsReporter → Z → Scope;
  tally_AlphanumericRange : list (rune * rune);
  tally_DefaultReplacementCharacter : rune;
  (** [prometheus.DefaultSeparator] *)
  prometheus_DefaultSeparator : string;
  (** [( *m3.Configuration).NewReporter()], called through a pointer that
      may be [nil] *)
  M3Configuration : Type;
  m3_NewReporter :
    option M3Configuration → option CachedStatsReporter * option error;
  (** [statsd.NewBufferedClient] and the tagging reporter built on it *)
  Statter : Type;
  statsd_NewBufferedClient :
    string → string → Z → Z → option Statter * option error;
  statsdreporter_NewReporter : option Statter → StatsReporter;
  (** [( *prometheus.Configuration).NewReporter(options)] *)
  prometheus_NewReporter :
    prometheus.Configuration → option CachedStatsReporter * option error;
  (** [metrics.Reporter], [NewTallyReporter] and
      [NewOpentelemeteryReporterWithMust], of files outside the sources *)
  Reporter : Type;
  NewTallyReporter : Scope → option ClientConfig.t → Reporter;
  NewOpentelemeteryReporterWithMust :
    PrometheusConfig → ClientConfig.t →
    Outcome (LogEntry error StatsReporter CachedStatsReporter)
            (option Reporter * option error);
  (** whether [logger.Fatal] ends the process, as the default logger's
      does, or returns *)
  logger_Fatal_exits : bool;
}.

Section reporters.

Context `{Collaborators}.

(** [Config]; [ClientConfig] is embedded, the three pointers may be
    [nil].  The pointers that the functions below receive as arguments and
    dereference without a check ([c], [config], [clientConfig]) are taken to
    be non-nil: a [Config], a [PrometheusConfig] or a [ClientConfig] is passed
    by value. *)
Record Config : Type := NewConfig {
  ClientConfig_ : ClientConfig.t;
  M3 : option M3Configuration;
  Statsd : option StatsdConfig.t;
  Prometheus : option PrometheusConfig;
}.


(** What the [logger] argument receives, in order. *)
Definition Log : Type := LogEntry error StatsReporter CachedStatsReporter.

(** A call of a function of this file that takes the [logger]. *)
Definition Call (A : Type) : Type := Outcome Log A.

Definition ret {A : Type} (a : A) : Call A := Returned a [].

Definition bind {A B : Type} (m : Call A) (k : A → Call B) : Call B :=
  match m with
  | Returned a log =>
      match k a with
      | Returned b log' => Returned b (log ++ log')
      | Exited log' => Exited (log ++ log')
      | Panicked log' => Panicked (log ++ log')
      end
  | Exited log => Exited log
  | Panicked log => Panicked log
  end.

Definition logger_Error
    (msg : string) (tags : list (Tag error StatsReporter CachedStatsReporter))
    : Call unit :=
  Returned () [ {| level := LevelError; msg := msg; tags := tags |} ].

Definition logger_Fatal
    (msg : string) (tags : list (Tag error StatsReporter CachedStatsReporter))
    : Call unit :=
  if logger_Fatal_exits
  then Exited [ {| level := LevelFatal; msg := msg; tags := tags |} ]
  else Returned () [ {| level := LevelFatal; msg := msg; tags := tags |} ].

(** Dereferencing a pointer. *)
Definition deref {A : Type} (p : option A) : Call A :=
  match p with
  | Some a => ret a
  | None => Panicked []
  end.

(** [time.Second], a [time.Duration] in nanoseconds. *)
Definition second : Z := 1000000000.

(** [ms = float64(time.Millisecond) / float64(time.Second)], a constant of
    type [float64]: the quotient, rounded to binary64. *)
Definition ms : float64 := (1000000 / 1000000000)%float.

(** [[]rune{'_'}] *)
Definition safeCharacters : list rune := [95].

Definition sanitizeOptions : SanitizeOptions :=
  {| NameCharacters :=
       {| Ranges := tally_AlphanumericRange; Characters := safeCharacters |};
     KeyCharacters :=
       {| Ranges := tally_AlphanumericRange; Characters := safeCharacters |};
     ValueCharacters :=
       {| Ranges := tally_AlphanumericRange; Characters := safeCharacters |};
     ReplacementCharacter := tally_DefaultReplacementCharacter |}.

(** The nineteen default boundaries, each a product of typed [float64]
    constants. *)
Definition defaultHistogramBoundaries : list float64 :=
  [ 1 * ms; 2 * ms; 5 * ms; 10 * ms; 20 * ms; 50 * ms; 100 * ms; 200 * ms;
    500 * ms; 1000 * ms; 2000 * ms; 5000 * ms; 10000 * ms; 20000 * ms;
    50000 * ms; 100000 * ms; 200000 * ms; 500000 * ms; 1000000 * ms ]%float.


Definition newM3Scope (c : Config) : Call Scope :=
  let '(reporter, err) := m3_NewReporter (M3 c) in
  bind (match err with
        | Some err => logger_Fatal "error creating m3 reporter" [tag_Error err]
        | None => ret ()
        end)
       (λ _,
          let scopeOpts :=
            {| ScopeOptions.Tags := ClientConfig.Tags (ClientConfig_ c);
               ScopeOptions.CachedReporter := reporter;
               ScopeOptions.Prefix := ClientConfig.Prefix (ClientConfig_ c);
               ScopeOptions.DefaultBuckets :=
                 histogramBoundariesToValueBuckets defaultHistogramBoundaries;
               ScopeOptions.Reporter := None;
               ScopeOptions.Separator := "";
               ScopeOptions.SanitizeOptions := None |} in
          ret (tally_NewRootScope scopeOpts second)).

Definition newStatsdScope (c : Config) : Call Scope :=
  bind (deref (Statsd c)) (λ config,
    if decide (String.length (StatsdConfig.HostPort config) = 0%nat) then
      ret NoopScope
    else
      let '(statter, err) :=
        statsd_NewBufferedClient
          (StatsdConfig.HostPort config) (StatsdConfig.Prefix config)
          (StatsdConfig.FlushInterval config) (StatsdConfig.FlushBytes config) in
      bind (match err with
            | Some err =>
                logger_Fatal "error creating statsd client" [tag_Error err]
            | None => ret ()
            end)
           (λ _,
              let reporter := statsdreporter_NewReporter statter in
              let scopeOpts :=
                {| ScopeOptions.Tags := ClientConfig.Tags (ClientConfig_ c);
                   ScopeOptions.Reporter := Some reporter;
                   ScopeOptions.Prefix := ClientConfig.Prefix (ClientConfig_ c);
                   ScopeOptions.DefaultBuckets :=
                     histogramBoundariesToValueBuckets defaultHistogramBoundaries;
                   ScopeOptions.CachedReporter := None;
                   ScopeOptions.Separator := "";
                   ScopeOptions.SanitizeOptions := None |} in
              ret (tally_NewRootScope scopeOpts second))).

(** The first statement of [newPrometheusScope]: an empty
    [DefaultHistogramBuckets] is replaced, in the configuration itself, by
    the objectives of the default boundaries. *)
Definition withDefaultHistogramBuckets
    (config : prometheus.Configuration) : prometheus.Configuration :=
  if decide (length (prometheus.DefaultHistogramBuckets config) = 0%nat) then
    {| prometheus.HandlerPath := prometheus.HandlerPath config;
       prometheus.ListenNetwork := prometheus.ListenNetwork config;
       prometheus.ListenAddress := prometheus.ListenAddress config;
       prometheus.TimerType := prometheus.TimerType config;
       prometheus.DefaultHistogramBuckets :=
         histogramBoundariesToHistogramObjectives defaultHistogramBoundaries;
       prometheus.DefaultSummaryObjectives :=
         prometheus.DefaultSummaryObjectives config;
       prometheus.OnError := prometheus.OnError config |}
  else config.

(** [newPrometheusScope].  The registry and the [OnError] callback handed to
    [NewReporter] are fresh values that the reporter keeps; the callback only
    logs a warning when the reporter calls it later. *)
Definition newPrometheusScope
    (config : prometheus.Configuration) (clientConfig : ClientConfig.t)
    : Call Scope :=
  let config := withDefaultHistogramBuckets config in
  let '(reporter, err) := prometheus_NewReporter config in
  bind (match err with
        | Some err =>
            logger_Fatal "error creating prometheus reporter" [tag_Error err]
        | None => ret ()
        end)
       (λ _,
          let scopeOpts :=
            {| ScopeOptions.Tags := ClientConfig.Tags clientConfig;
               ScopeOptions.CachedReporter := reporter;
               ScopeOptions.Separator := prometheus_DefaultSeparator;
               ScopeOptions.SanitizeOptions := Some sanitizeOptions;
               ScopeOptions.Prefix := ClientConfig.Prefix clientConfig;
               ScopeOptions.DefaultBuckets :=
                 histogramBoundariesToValueBuckets defaultHistogramBoundaries;
               ScopeOptions.Reporter := None |} in
          ret (tally_NewRootScope scopeOpts second)).

(** An index out of range in a conversion loop is a panic. *)
Definition of_option {A : Type} (m : option A) : Call A :=
  match m with
  | Some a => ret a
  | None => Panicked []
  end.

Definition NewScope (c : Config) : Call Scope :=
  match M3 c with
  | Some _ => newM3Scope c
  | None =>
      match Statsd c with
      | Some _ => newStatsdScope c
      | None =>
          match Prometheus c with
          | Some prometheusConfig =>
              bind (of_option (convertPrometheusConfigToTally prometheusConfig))
                   (λ tallyConfig,
                      newPrometheusScope tallyConfig (ClientConfig_ c))
          | None => ret NoopScope
          end
      end
  end.

Definition NewTallyReporterFromPrometheusConfig
    (config : PrometheusConfig) (clientConfig : ClientConfig.t)
    : Call Reporter :=
  bind (of_option (convertPrometheusConfigToTally config)) (λ tallyConfig,
  bind (newPrometheusScope tallyConfig clientConfig) (λ tallyScope,
  ret (NewTallyReporter tallyScope (Some clientConfig)))).

Definition NewTallyReporterFromConfig
    (c : Config) : Call (option Reporter * option error) :=
  bind (NewScope c) (λ scope,
  let reporter := NewTallyReporter scope (Some (ClientConfig_ c)) in
  ret (Some reporter, None)).

Definition InitReporterFromPrometheusConfig
    (config : PrometheusConfig) (clientConfig : ClientConfig.t)
    : Call (option Reporter * option error) :=
  if decide (Framework config = FrameworkTally) then
    bind (NewTallyReporterFromPrometheusConfig config clientConfig)
         (λ reporter, ret (Some reporter, None))
  else if decide (Framework config = FrameworkOpentelemetry) then
    NewOpentelemeteryReporterWithMust config clientConfig
  else
    let err :=
      fmt_Errorf "unsupported framework type specified in config: %q"
                 [Framework config] in
    bind (logger_Error (error_Error err) [])
         (λ _, ret (None, Some err)).

Definition InitMetricsReporter
    (c : Config) : Call (option Reporter * option error) :=
  match Prometheus c with
  | Some prometheusConfig =>
      if decide (0 < String.length (Framework prometheusConfig))%nat then
        InitReporterFromPrometheusConfig prometheusConfig (ClientConfig_ c)
      else
        NewTallyReporterFromConfig c
  | None => NewTallyReporterFromConfig c
  end.


End reporters.

End metrics.

(** ** Sample configuration *)

Module sample_metrics.

Import metrics.

(** Collaborators that keep what they are given: a scope is the options it
    was built from, a Prometheus reporter is the configuration it was built
    from, a tally reporter is its scope; no constructor fails. *)
Definition recording : Collaborators :=
  {| error := string;
     error_Error := λ err, err;
     fmt_Errorf := λ format args, String.concat " " (format :: args);
     Scope := option (ScopeOptions.t unit (option prometheus.Configuration));
     NoopScope := None;
     StatsReporter := unit;
     CachedStatsReporter := option prometheus.Configuration;
     tally_NewRootScope := λ options _, Some options;
     tally_AlphanumericRange := [(97, 122); (65, 90); (48, 57)];
     tally_DefaultReplacementCharacter := 95;
     prometheus_DefaultSeparator := "_";
     M3Configuration := unit;
     m3_NewReporter := λ _, (Some None, None);
     Statter := unit;
     statsd_NewBufferedClient := λ _ _ _ _, (Some (), None);
     statsdreporter_NewReporter := λ _, ();
     prometheus_NewReporter := λ config, (Some (Some config), None);
     Reporter := option (ScopeOptions.t unit (option prometheus.Configuration));
     NewTallyReporter := λ scope _, scope;
     NewOpentelemeteryReporterWithMust :=
       λ _ _, Returned (None, Some "opentelemetry") [];
     logger_Fatal_exits := true |}.

Definition clientConfig : ClientConfig.t :=
  {| ClientConfig.Tags := {[ "cluster" := "active" ]};
     ClientConfig.ExcludeTags := ∅;
     ClientConfig.Prefix := "temporal";
     ClientConfig.PerUnitHistogramBoundaries := ∅ |}.

Definition prometheusConfig : PrometheusConfig :=
  {| Framework := "";
     ListenAddress := "127.0.0.1:9090";
     DefaultHistogramBoundaries := [0.5; 1; 2.5]%float;
     HandlerPath := "/metrics";
     ListenNetwork := "";
     TimerType := "summary";
     DefaultHistogramBuckets := [];
     DefaultSummaryObjectives :=
       [ {| Percentile := 0.5%float; AllowedError := 0.125%float |};
         {| Percentile := 0.75%float; AllowedError := 0.0625%float |} ];
     OnError := "" |}.

Definition statsdConfig : StatsdConfig.t :=
  {| StatsdConfig.HostPort := "";
     StatsdConfig.Prefix := "temporal";
     StatsdConfig.FlushInterval := 0;
     StatsdConfig.FlushBytes := 0 |}.

(** A Prometheus configuration that names a framework this package does
    not know. *)
Definition unknownFramework : PrometheusConfig :=
  {| Framework := "prometheus";
     ListenAddress := "127.0.0.1:9090";
     DefaultHistogramBoundaries := [];
     HandlerPath := "";
     ListenNetwork := "";
     TimerType := "";
     DefaultHistogramBuckets := [];
     DefaultSummaryObjectives := [];
     OnError := "" |}.

Definition config
    (m3 : option unit) (statsd : option StatsdConfig.t)
    (prometheus : option PrometheusConfig) : @Config recording :=
  @NewConfig recording clientConfig m3 statsd prometheus.

End sample_metrics.

(** * Properties *)

(** ** Laws of the capability set on task objects *)

Section object_laws.

Import tasks.

Variables (version id : Z) (timestamp : time.Time) (o : object).

Lemma GetVersion_SetVersion : GetVersion (SetVersion version o) = version.
Proof. by destruct o. Qed.

Lemma GetVersion_SetVisibilityTime :
  GetVersion (SetVisibilityTime timestamp o) = GetVersion o.
Proof. by destruct o. Qed.

Lemma GetVisibilityTime_SetVisibilityTime :
  GetVisibilityTime (SetVisibilityTime timestamp o) = timestamp.
Proof. by destruct o. Qed.

Lemma GetVisibilityTime_SetVersion :
  GetVisibilityTime (SetVersion version o) = GetVisibilityTime o.
Proof. by destruct o. Qed.

Lemma GetCategory_SetVersion :
  GetCategory (SetVersion version o) = GetCategory o.
Proof. by destruct o. Qed.

Lemma GetCategory_SetVisibilityTime :
  GetCategory (SetVisibilityTime timestamp o) = GetCategory o.
Proof. by destruct o. Qed.

End object_laws.

(** ** The stamp of one visit *)

Section stamp_facts.

Import tasks workflow.

Variables (version : Z) (timestamp : time.Time).

Lemma stamp_version category o :
  GetVersion (stamp version timestamp category o) = version.
Proof.
  unfold stamp. case_decide.
  - by rewrite GetVersion_SetVisibilityTime, GetVersion_SetVersion.
  - apply GetVersion_SetVersion.
Qed.

Lemma stamp_category category o :
  GetCategory (stamp version timestamp category o) = GetCategory o.
Proof.
  unfold stamp. case_decide.
  - by rewrite GetCategory_SetVisibilityTime, GetCategory_SetVersion.
  - apply GetCategory_SetVersion.
Qed.

Lemma stamp_visibility_immediate category o :
  Category_Type category = CategoryTypeImmediate →
  GetVisibilityTime (stamp version timestamp category o) = timestamp.
Proof.
  intros Himm. unfold stamp. rewrite decide_True by done.
  apply GetVisibilityTime_SetVisibilityTime.
Qed.

Lemma stamp_visibility_scheduled category o :
  Category_Type category = CategoryTypeScheduled →
  GetVisibilityTime (stamp version timestamp category o) = GetVisibilityTime o.
Proof.
  intros Hsch. unfold stamp. rewrite decide_False by congruence.
  apply GetVisibilityTime_SetVersion.
Qed.

(** A visibility time already equal to [timestamp] survives any stamp. *)
Lemma stamp_visibility_stable category o :
  GetVisibilityTime o = timestamp →
  GetVisibilityTime (stamp version timestamp category o) = timestamp.
Proof.
  intros Ho. destruct (Category_Type category) eqn:Hty.
  - by apply stamp_visibility_immediate.
  - by rewrite stamp_visibility_scheduled.
Qed.

(** *** Invariants carried through the occurrences of a task in a slice *)

Lemma stamp_occurrences_preserves (P : object → Prop) category task ts o :
  P o →
  (task ∈ ts → ∀ o', P o' → P (stamp version timestamp category o')) →
  P (stamp_occurrences version timestamp category task ts o).
Proof.
  unfold stamp_occurrences. revert o.
  induction ts as [|task' ts IH]; intros o Ho Hstep; simpl; [done|].
  apply IH.
  - destruct (decide (task' = task)) as [Heq|Heq]; [|done].
    subst task'. apply Hstep; [left|done].
  - intros Hin. apply Hstep. by right.
Qed.

Lemma stamp_occurrences_establishes (Q : object → Prop) category task ts o :
  task ∈ ts →
  (∀ o', Q (stamp version timestamp category o')) →
  Q (stamp_occurrences version timestamp category task ts o).
Proof.
  intros Hin Hest. unfold stamp_occurrences. revert o.
  induction ts as [|task' ts IH]; intros o; simpl.
  - by apply not_elem_of_nil in Hin.
  - destruct (decide (task ∈ ts)) as [Hts|Hts]; [by apply IH|].
    apply elem_of_cons in Hin as [Heq|?]; [subst task'|done].
    rewrite decide_True by done.
    assert (Hnone : ∀ o1, foldl (λ o2 task', if decide (task' = task)
                    then stamp version timestamp category o2 else o2) o1 ts = o1).
    { clear IH. induction ts as [|x ts IHts]; intros o1; simpl; [done|].
      rewrite decide_False by (intros ->; apply Hts; left).
      apply IHts. intros Hx. apply Hts. by right. }
    rewrite Hnone. apply Hest.
Qed.

(** *** Invariants carried through the visits of the map entries *)

Lemma visits_preserve (P : object → Prop) task entries o :
  P o →
  (∀ category ts o',
     (category, ts) ∈ entries → category ≠ CategoryReplication → task ∈ ts →
     P o' → P (stamp version timestamp category o')) →
  P (foldl (visit version timestamp task) o entries).
Proof.
  revert o. induction entries as [|[category ts] entries IH];
    intros o Ho Hstep; simpl; [done|].
  apply IH.
  - unfold visit; simpl.
    destruct (decide (category = CategoryReplication)) as [Hrep|Hrep]; [done|].
    apply stamp_occurrences_preserves; [done|].
    intros Hin o'. apply (Hstep category ts); [left|done|done].
  - intros c ts' o' Hin. apply (Hstep c ts'). by right.
Qed.

Lemma visits_establish (Q : object → Prop) task entries category ts o :
  (category, ts) ∈ entries → category ≠ CategoryReplication → task ∈ ts →
  (∀ o', Q (stamp version timestamp category o')) →
  (∀ category' o', Q o' → Q (stamp version timestamp category' o')) →
  Q (foldl (visit version timestamp task) o entries).
Proof.
  intros Hentry Hrep Hin Hest Hstable.
  apply list_elem_of_split in Hentry as (before & after & ->).
  rewrite foldl_app. simpl.
  apply visits_preserve; [|by intros; apply Hstable].
  unfold visit at 1; simpl. rewrite decide_False by done.
  by apply stamp_occurrences_establishes.
Qed.

End stamp_facts.

(** ** Running the loops of [setTaskInfo] *)

Section setTaskInfo_run.

Import tasks workflow.

Variables (version : Z) (timestamp : time.Time).

(** The body of the inner loop replaces the object behind [task] by its
    stamp, and panics on a reference that designates nothing. *)
Lemma inner_body_run category task (h : heap) o :
  h !! task = Some o →
  (call_SetVersion task version ;;
   if decide (Category_Type category = CategoryTypeImmediate)
   then call_SetVisibilityTime task timestamp
   else mret ()) h
  = Some ((), <[task := stamp version timestamp category o]> h).
Proof.
  intros Ho. unfold mbind, Go_bind, call_SetVersion, call_setter.
  rewrite Ho. unfold stamp. case_decide.
  - unfold call_SetVisibilityTime, call_setter.
    by rewrite lookup_insert_eq, insert_insert_eq.
  - done.
Qed.

Lemma inner_loop_run category ts (h : heap) :
  Forall (λ task, is_Some (h !! task)) ts →
  ∃ h',
    for_range ts (λ task,
      call_SetVersion task version ;;
      if decide (Category_Type category = CategoryTypeImmediate)
      then call_SetVisibilityTime task timestamp
      else mret ()) h = Some ((), h') ∧
    ∀ task,
      h' !! task
      = stamp_occurrences version timestamp category task ts <$> h !! task.
Proof.
  revert h. induction ts as [|x ts IH]; intros h Hlive.
  - exists h. split; [done|]. intros task. by destruct (h !! task).
  - apply Forall_cons in Hlive as [[o Ho] Hlive].
    destruct (IH (<[x := stamp version timestamp category o]> h))
      as (h' & Hrun & Hh').
    { eapply Forall_impl; [exact Hlive|]. intros task Htask; simpl in *.
      rewrite lookup_insert. destruct (decide (x = task)); eauto. }
    exists h'. split.
    + simpl. unfold mbind at 1, Go_bind at 1.
      by rewrite (inner_body_run category x h o Ho).
    + intros task. rewrite Hh'. unfold stamp_occurrences; simpl.
      rewrite lookup_insert. destruct (decide (x = task)) as [Heq|Heq].
      * subst task. by rewrite Ho.
      * by destruct (h !! task).
Qed.

Lemma visit_replication task o category ts :
  category = CategoryReplication →
  visit version timestamp task o (category, ts) = o.
Proof. intros Hrep. unfold visit; simpl. by rewrite decide_True. Qed.

Lemma visit_other task o category ts :
  category ≠ CategoryReplication →
  visit version timestamp task o (category, ts)
  = stamp_occurrences version timestamp category task ts o.
Proof. intros Hrep. unfold visit; simpl. by rewrite decide_False. Qed.

(** The whole of [setTaskInfo], for any order in which the map entries are
    visited: it returns as soon as no task outside the Replication category
    is [nil], and the object behind each reference has then gone through the
    visits of all entries. *)
Lemma setTaskInfo_range_run entries (h : heap) :
  Forall (λ entry : Category * list ref,
            entry.1 ≠ CategoryReplication →
            Forall (λ task, is_Some (h !! task)) entry.2) entries →
  ∃ h',
    setTaskInfo_range version timestamp entries h = Some ((), h') ∧
    ∀ task,
      h' !! task = (λ o, foldl (visit version timestamp task) o entries)
                     <$> h !! task.
Proof.
  revert h. induction entries as [|[category ts] entries IH]; intros h Hlive.
  - exists h. split; [done|]. intros task. by destruct (h !! task).
  - apply Forall_cons in Hlive as [Hts Hlive]. simpl in Hts.
    unfold setTaskInfo_range; simpl.
    unfold mbind at 1, Go_bind at 1.
    destruct (decide (category = CategoryReplication)) as [Hrep|Hrep].
    + destruct (IH h Hlive) as (h' & Hrun & Hh').
      exists h'. split; [exact Hrun|].
      intros task. rewrite Hh'. destruct (h !! task) as [o|]; simpl; [|done].
      by rewrite visit_replication.
    + destruct (inner_loop_run category ts h (Hts Hrep)) as (h1 & Hrun1 & Hh1).
      rewrite Hrun1.
      destruct (IH h1) as (h' & Hrun & Hh').
      { eapply Forall_impl; [exact Hlive|]. intros entry Hentry Hne.
        eapply Forall_impl; [exact (Hentry Hne)|]. intros task Htask; simpl in *.
        rewrite Hh1. by apply fmap_is_Some. }
      exists h'. split; [exact Hrun|].
      intros task. rewrite Hh', Hh1. destruct (h !! task) as [o|]; simpl; [|done].
      by rewrite visit_other.
Qed.

(** The entries a [range] visits are the bindings of the map. *)
Lemma range_of_lookup (insertTasks : gmap Category (list ref)) entries category ts :
  range_of insertTasks entries →
  (category, ts) ∈ entries ↔ insertTasks !! category = Some ts.
Proof.
  unfold range_of. intros ->. apply elem_of_map_to_list.
Qed.

Lemma range_of_map_to_list (insertTasks : gmap Category (list ref)) :
  range_of insertTasks (map_to_list insertTasks).
Proof. unfold range_of. reflexivity. Qed.

Lemma filed_by_category_live (h : heap) insertTasks :
  filed_by_category h insertTasks → live h insertTasks.
Proof.
  intros Hwf. eapply map_Forall_impl; [exact Hwf|].
  intros category ts Hts. eapply Forall_impl; [exact Hts|].
  intros task Htask; simpl in *.
  destruct (h !! task); [eauto|done].
Qed.

Lemma live_lookup (h : heap) insertTasks category ts task :
  live h insertTasks →
  insertTasks !! category = Some ts → task ∈ ts → is_Some (h !! task).
Proof.
  intros Hlive Hts Hin.
  specialize (Hlive category ts Hts). rewrite Forall_forall in Hlive. auto.
Qed.

Lemma filed_by_category_lookup (h : heap) insertTasks category ts task :
  filed_by_category h insertTasks →
  insertTasks !! category = Some ts → task ∈ ts →
  ∃ o, h !! task = Some o ∧ GetCategory o = category.
Proof.
  intros Hwf Hts Hin.
  specialize (Hwf category ts Hts). rewrite Forall_forall in Hwf.
  specialize (Hwf task Hin).
  destruct (h !! task) as [o|]; [|done].
  exists o. split; [done|]. by injection Hwf.
Qed.

(** [setTaskInfo] returns on every live insert-task map. *)
Lemma setTaskInfo_range_live insertTasks entries (h : heap) :
  live h insertTasks → range_of insertTasks entries →
  ∃ h',
    setTaskInfo_range version timestamp entries h = Some ((), h') ∧
    ∀ task,
      h' !! task = (λ o, foldl (visit version timestamp task) o entries)
                     <$> h !! task.
Proof.
  intros Hlive Hrange. apply setTaskInfo_range_run.
  apply Forall_forall. intros [category ts] Hentry _. simpl.
  apply (range_of_lookup _ _ _ _ Hrange) in Hentry.
  apply Forall_forall. intros task Hin. by eapply live_lookup.
Qed.

End setTaskInfo_run.

(** ** The stamping rule *)

Section stamping_rule.

Import tasks workflow.

Variables (version : Z) (timestamp : time.Time).
Variables (insertTasks : gmap Category (list ref)) (entries : list (Category * list ref)).
Variable (h : heap).

Hypothesis Hrange : range_of insertTasks entries.

(** In an insert-task map, a reference occurs under one category only. *)
Lemma filed_once category category' ts ts' task :
  filed_by_category h insertTasks →
  insertTasks !! category = Some ts → task ∈ ts →
  insertTasks !! category' = Some ts' → task ∈ ts' →
  category' = category.
Proof.
  intros Hwf Hts Hin Hts' Hin'.
  destruct (filed_by_category_lookup _ _ _ _ _ Hwf Hts Hin) as (o & Ho & Hc).
  destruct (filed_by_category_lookup _ _ _ _ _ Hwf Hts' Hin') as (o' & Ho' & Hc').
  congruence.
Qed.

(** The skipped category: the object behind a task filed under Replication
    comes out of [setTaskInfo] as it went in. *)
Lemma replication_task_untouched :
  filed_by_category h insertTasks →
  ∃ h',
    setTaskInfo_range version timestamp entries h = Some ((), h') ∧
    ∀ tasksByCategory task,
      insertTasks !! CategoryReplication = Some tasksByCategory →
      task ∈ tasksByCategory →
      h' !! task = h !! task.
Proof.
  intros Hwf.
  destruct (setTaskInfo_range_live version timestamp insertTasks entries h)
    as (h' & Hrun & Hh'); [by apply filed_by_category_live|done|].
  exists h'. split; [done|].
  intros ts task Hts Hin. rewrite Hh'.
  destruct (h !! task) as [o|]; simpl; [|done]. f_equal.
  apply (visits_preserve version timestamp (λ o', o' = o)); [done|].
  intros category ts' o' Hentry Hne Hin' _. exfalso. apply Hne.
  apply (range_of_lookup _ _ _ _ Hrange) in Hentry.
  by eapply filed_once.
Qed.

End stamping_rule.

Import tasks workflow.

(** C1.  On every insert-task map and for every mutation version,
    [setTaskInfo] returns, and the [Version] of every task filed under the
    Replication category is afterwards what it was before the call: the
    generic stamping rule does not force it to the mutation's version. *)
Theorem setTaskInfo_keeps_replication_version
    (version : Z) (timestamp : time.Time)
    (insertTasks : gmap Category (list ref))
    (entries : list (Category * list ref)) (h : heap) :
  filed_by_category h insertTasks →
  range_of insertTasks entries →
  ∃ h',
    setTaskInfo_range version timestamp entries h = Some ((), h') ∧
    ∀ tasksByCategory task,
      insertTasks !! CategoryReplication = Some tasksByCategory →
      task ∈ tasksByCategory →
      GetVersion <$> h' !! task = GetVersion <$> h !! task.
Proof.
  intros Hwf Hrange.
  destruct (replication_task_untouched version timestamp _ _ h Hrange Hwf)
    as (h' & Hrun & Hsame).
  exists h'. split; [done|].
  intros ts task Hts Hin. by rewrite (Hsame ts task Hts Hin).
Qed.

Lemma setTaskInfo_keeps_replication_version_witness :
  filed_by_category sample.objects sample.insertTasks ∧
  range_of sample.insertTasks (map_to_list sample.insertTasks) ∧
  ∃ h',
    setTaskInfo 9 500 sample.insertTasks sample.objects = Some ((), h') ∧
    ∀ tasksByCategory task,
      sample.insertTasks !! CategoryReplication = Some tasksByCategory →
      task ∈ tasksByCategory →
      GetVersion <$> h' !! task = GetVersion <$> sample.objects !! task.
Proof.
  assert (Hwf : filed_by_category sample.objects sample.insertTasks).
  { apply (bool_decide_eq_true_1 _). vm_compute. reflexivity. }
  assert (Hrange : range_of sample.insertTasks (map_to_list sample.insertTasks)).
  { unfold range_of. reflexivity. }
  split; [exact Hwf|]. split; [exact Hrange|].
  exact (setTaskInfo_keeps_replication_version
           9 500 sample.insertTasks _ sample.objects Hwf Hrange).
Defined.

(** C2.  On every insert-task map without [nil] tasks and for every mutation
    version [version], [setTaskInfo] returns, and afterwards every task filed
    under a category other than Replication has [Version] equal to
    [version]. *)
Theorem setTaskInfo_stamps_version
    (version : Z) (timestamp : time.Time)
    (insertTasks : gmap Category (list ref))
    (entries : list (Category * list ref)) (h : heap) :
  live h insertTasks →
  range_of insertTasks entries →
  ∃ h',
    setTaskInfo_range version timestamp entries h = Some ((), h') ∧
    ∀ category tasksByCategory task,
      insertTasks !! category = Some tasksByCategory →
      category ≠ CategoryReplication →
      task ∈ tasksByCategory →
      GetVersion <$> h' !! task = Some version.
Proof.
  intros Hlive Hrange.
  destruct (setTaskInfo_range_live version timestamp _ _ h Hlive Hrange)
    as (h' & Hrun & Hh').
  exists h'. split; [done|].
  intros category ts task Hts Hne Hin. rewrite Hh'.
  destruct (live_lookup _ _ _ _ _ Hlive Hts Hin) as [o ->]. apply (f_equal Some).
  apply (visits_establish version timestamp
           (λ o', GetVersion o' = version) task entries category ts);
    [by apply (range_of_lookup _ _ _ _ Hrange)|done|done| |].
  - intros o'. apply stamp_version.
  - intros category' o' _. apply stamp_version.
Qed.

Lemma setTaskInfo_stamps_version_witness :
  live sample.objects sample.insertTasks ∧
  range_of sample.insertTasks (map_to_list sample.insertTasks) ∧
  ∃ h',
    setTaskInfo 9 500 sample.insertTasks sample.objects = Some ((), h') ∧
    ∀ category tasksByCategory task,
      sample.insertTasks !! category = Some tasksByCategory →
      category ≠ CategoryReplication →
      task ∈ tasksByCategory →
      GetVersion <$> h' !! task = Some 9.
Proof.
  assert (Hlive : live sample.objects sample.insertTasks).
  { apply (bool_decide_eq_true_1 _). vm_compute. reflexivity. }
  assert (Hrange : range_of sample.insertTasks (map_to_list sample.insertTasks)).
  { unfold range_of. reflexivity. }
  split; [exact Hlive|]. split; [exact Hrange|].
  exact (setTaskInfo_stamps_version
           9 500 sample.insertTasks _ sample.objects Hlive Hrange).
Defined.

(** C3.  On every insert-task map and for every commit time [timestamp],
    [setTaskInfo] returns, and afterwards every task filed under a category
    of type Immediate other than Replication has [VisibilityTimestamp] equal
    to [timestamp], while every task filed under a category of type
    Scheduled (Timer, for one) has the [VisibilityTimestamp] it had before
    the call. *)
Theorem setTaskInfo_stamps_visibility
    (version : Z) (timestamp : time.Time)
    (insertTasks : gmap Category (list ref))
    (entries : list (Category * list ref)) (h : heap) :
  filed_by_category h insertTasks →
  range_of insertTasks entries →
  ∃ h',
    setTaskInfo_range version timestamp entries h = Some ((), h') ∧
    (∀ category tasksByCategory task,
       insertTasks !! category = Some tasksByCategory →
       task ∈ tasksByCategory →
       Category_Type category = CategoryTypeImmediate →
       category ≠ CategoryReplication →
       GetVisibilityTime <$> h' !! task = Some timestamp) ∧
    (∀ category tasksByCategory task,
       insertTasks !! category = Some tasksByCategory →
       task ∈ tasksByCategory →
       Category_Type category = CategoryTypeScheduled →
       GetVisibilityTime <$> h' !! task = GetVisibilityTime <$> h !! task).
Proof.
  intros Hwf Hrange.
  pose proof (filed_by_category_live _ _ Hwf) as Hlive.
  destruct (setTaskInfo_range_live version timestamp _ _ h Hlive Hrange)
    as (h' & Hrun & Hh').
  exists h'. split; [done|]. split.
  - intros category ts task Hts Hin Himm Hne. rewrite Hh'.
    destruct (live_lookup _ _ _ _ _ Hlive Hts Hin) as [o ->]. apply (f_equal Some).
    apply (visits_establish version timestamp
             (λ o', GetVisibilityTime o' = timestamp) task entries category ts);
      [by apply (range_of_lookup _ _ _ _ Hrange)|done|done| |].
    + intros o'. by apply stamp_visibility_immediate.
    + intros category' o'. apply stamp_visibility_stable.
  - intros category ts task Hts Hin Hsch. rewrite Hh'.
    destruct (live_lookup _ _ _ _ _ Hlive Hts Hin) as [o ->]. apply (f_equal Some).
    apply (visits_preserve version timestamp
             (λ o', GetVisibilityTime o' = GetVisibilityTime o)); [done|].
    intros category' ts' o' Hentry _ Hin' Ho'.
    apply (range_of_lookup _ _ _ _ Hrange) in Hentry.
    rewrite (filed_once _ _ _ _ _ _ _ Hwf Hts Hin Hentry Hin').
    by rewrite stamp_visibility_scheduled.
Qed.

Lemma setTaskInfo_stamps_visibility_witness :
  filed_by_category sample.objects sample.insertTasks ∧
  range_of sample.insertTasks (map_to_list sample.insertTasks) ∧
  ∃ h',
    setTaskInfo 9 500 sample.insertTasks sample.objects = Some ((), h') ∧
    (∀ category tasksByCategory task,
       sample.insertTasks !! category = Some tasksByCategory →
       task ∈ tasksByCategory →
       Category_Type category = CategoryTypeImmediate →
       category ≠ CategoryReplication →
       GetVisibilityTime <$> h' !! task = Some 500) ∧
    (∀ category tasksByCategory task,
       sample.insertTasks !! category = Some tasksByCategory →
       task ∈ tasksByCategory →
       Category_Type category = CategoryTypeScheduled →
       GetVisibilityTime <$> h' !! task
       = GetVisibilityTime <$> sample.objects !! task).
Proof.
  assert (Hwf : filed_by_category sample.objects sample.insertTasks).
  { apply (bool_decide_eq_true_1 _). vm_compute. reflexivity. }
  assert (Hrange : range_of sample.insertTasks (map_to_list sample.insertTasks)).
  { unfold range_of. reflexivity. }
  split; [exact Hwf|]. split; [exact Hrange|].
  exact (setTaskInfo_stamps_visibility
           9 500 sample.insertTasks _ sample.objects Hwf Hrange).
Defined.

(** C4, as the code has it.  On every insert-task map and for every commit
    time, [setTaskInfo] returns, and the [VisibilityTimestamp] of every task
    filed under the Replication category is afterwards what it was before the
    call: the loop skips the Replication category as a whole, although
    Replication is a category of type Immediate. *)
Theorem setTaskInfo_keeps_replication_visibility
    (version : Z) (timestamp : time.Time)
    (insertTasks : gmap Category (list ref))
    (entries : list (Category * list ref)) (h : heap) :
  filed_by_category h insertTasks →
  range_of insertTasks entries →
  Category_Type CategoryReplication = CategoryTypeImmediate ∧
  ∃ h',
    setTaskInfo_range version timestamp entries h = Some ((), h') ∧
    ∀ tasksByCategory task,
      insertTasks !! CategoryReplication = Some tasksByCategory →
      task ∈ tasksByCategory →
      GetVisibilityTime <$> h' !! task = GetVisibilityTime <$> h !! task.
Proof.
  intros Hwf Hrange. split; [done|].
  destruct (replication_task_untouched version timestamp _ _ h Hrange Hwf)
    as (h' & Hrun & Hsame).
  exists h'. split; [done|].
  intros ts task Hts Hin. by rewrite (Hsame ts task Hts Hin).
Qed.

Lemma setTaskInfo_keeps_replication_visibility_witness :
  filed_by_category sample.objects sample.insertTasks ∧
  range_of sample.insertTasks (map_to_list sample.insertTasks) ∧
  Category_Type CategoryReplication = CategoryTypeImmediate ∧
  ∃ h',
    setTaskInfo 9 500 sample.insertTasks sample.objects = Some ((), h') ∧
    ∀ tasksByCategory task,
      sample.insertTasks !! CategoryReplication = Some tasksByCategory →
      task ∈ tasksByCategory →
      GetVisibilityTime <$> h' !! task
      = GetVisibilityTime <$> sample.objects !! task.
Proof.
  assert (Hwf : filed_by_category sample.objects sample.insertTasks).
  { apply (bool_decide_eq_true_1 _). vm_compute. reflexivity. }
  assert (Hrange : range_of sample.insertTasks (map_to_list sample.insertTasks)).
  { unfold range_of. reflexivity. }
  split; [exact Hwf|]. split; [exact Hrange|].
  exact (setTaskInfo_keeps_replication_visibility
           9 500 sample.insertTasks _ sample.objects Hwf Hrange).
Defined.

(** The reading of C4 that has the Replication task visibility-stamped fails
    on the map {Transfer: [t1], Timer: [t2], Replication: [t3]} with commit
    time 500: [t3], filed under Replication, keeps its visibility time
    100. *)
Lemma setTaskInfo_replication_visibility_not_stamped :
  filed_by_category sample.objects sample.insertTasks ∧
  sample.insertTasks !! CategoryReplication = Some [3%positive] ∧
  ∃ h',
    setTaskInfo 9 500 sample.insertTasks sample.objects = Some ((), h') ∧
    GetVisibilityTime <$> h' !! 3%positive = Some 100 ∧
    GetVisibilityTime <$> h' !! 3%positive ≠ Some 500.
Proof.
  split; [apply (bool_decide_eq_true_1 _); vm_compute; reflexivity|].
  split; [vm_compute; reflexivity|].
  destruct (setTaskInfo 9 500 sample.insertTasks sample.objects)
    as [[[] h']|] eqn:Hrun; [|vm_compute in Hrun; discriminate].
  exists h'. split; [reflexivity|].
  assert (Hvis : GetVisibilityTime <$> h' !! 3%positive = Some 100).
  { vm_compute in Hrun. injection Hrun as <-. vm_compute. reflexivity. }
  split; [exact Hvis|]. rewrite Hvis. discriminate.
Qed.

(** C9.  On every insert-task map, for every version and every timestamp,
    [setTaskInfo] returns, and the object behind every task filed under the
    Replication category is afterwards the object it was before the call:
    its [Version], its [VisibilityTimestamp] and every other field keep
    their values. *)
Theorem setTaskInfo_frames_replication
    (version : Z) (timestamp : time.Time)
    (insertTasks : gmap Category (list ref))
    (entries : list (Category * list ref)) (h : heap) :
  filed_by_category h insertTasks →
  range_of insertTasks entries →
  ∃ h',
    setTaskInfo_range version timestamp entries h = Some ((), h') ∧
    ∀ tasksByCategory task,
      insertTasks !! CategoryReplication = Some tasksByCategory →
      task ∈ tasksByCategory →
      h' !! task = h !! task.
Proof.
  intros Hwf Hrange.
  exact (replication_task_untouched version timestamp _ _ h Hrange Hwf).
Qed.

Lemma setTaskInfo_frames_replication_witness :
  filed_by_category sample.objects sample.insertTasks ∧
  range_of sample.insertTasks (map_to_list sample.insertTasks) ∧
  ∃ h',
    setTaskInfo 9 500 sample.insertTasks sample.objects = Some ((), h') ∧
    ∀ tasksByCategory task,
      sample.insertTasks !! CategoryReplication = Some tasksByCategory →
      task ∈ tasksByCategory →
      h' !! task = sample.objects !! task.
Proof.
  assert (Hwf : filed_by_category sample.objects sample.insertTasks).
  { apply (bool_decide_eq_true_1 _). vm_compute. reflexivity. }
  assert (Hrange : range_of sample.insertTasks (map_to_list sample.insertTasks)).
  { unfold range_of. reflexivity. }
  split; [exact Hwf|]. split; [exact Hrange|].
  exact (setTaskInfo_frames_replication
           9 500 sample.insertTasks _ sample.objects Hwf Hrange).
Defined.

(** The precondition [filed_by_category] matters for the statements about
    the skipped category, because references are shared: an object filed
    under Replication and, against its own category, under Transfer as well
    is stamped through the Transfer entry. *)
Remark setTaskInfo_shared_reference :
  let insertTasks : gmap Category (list ref) :=
    <[CategoryTransfer := [3%positive]]>
      (<[CategoryReplication := [3%positive]]> ∅) in
  ¬ filed_by_category sample.objects insertTasks ∧
  ∃ h',
    setTaskInfo 9 500 insertTasks sample.objects = Some ((), h') ∧
    GetVersion <$> sample.objects !! 3%positive = Some 3 ∧
    GetVersion <$> h' !! 3%positive = Some 9.
Proof.
  intros insertTasks. split.
  - apply (bool_decide_eq_false_1 _). vm_compute. reflexivity.
  - destruct (setTaskInfo 9 500 insertTasks sample.objects)
      as [[[] h']|] eqn:Hrun; [|vm_compute in Hrun; discriminate].
    exists h'. split; [reflexivity|]. split; [reflexivity|].
    vm_compute in Hrun. injection Hrun as <-. vm_compute. reflexivity.
Qed.

(** ** Sync-activity generation *)

Section sync_activity.

Import workflow.

Variables (now : time.Time) (workflowKey : definition.WorkflowKey).
Variable (activityInfos : gmap Z persistencespb.ActivityInfo).

(** The loop appends to what it has, item by item. *)
Lemma convertSyncActivityInfos_range_cons item items :
  convertSyncActivityInfos_range now workflowKey activityInfos (item :: items)
  = match activityInfos !! item with
    | Some activityInfo => [sync_task_of now workflowKey activityInfo]
    | None => []
    end ++ convertSyncActivityInfos_range now workflowKey activityInfos items.
Proof.
  unfold convertSyncActivityInfos_range.
  set (step := λ (outputs : list tasks.SyncActivityTask.t) (item : Z), _).
  assert (Hacc : ∀ items acc, foldl step acc items = acc ++ foldl step [] items).
  { clear. intros items. induction items as [|x items IH]; intros acc; simpl.
    - by rewrite app_nil_r.
    - rewrite IH, (IH (step [] x)). rewrite app_assoc. f_equal.
      unfold step. destruct (activityInfos !! x); [done|by rewrite app_nil_r]. }
  simpl. rewrite Hacc. f_equal.
Qed.

Lemma convertSyncActivityInfos_range_present items :
  Forall2 (λ item task,
             ∃ activityInfo,
               activityInfos !! item = Some activityInfo ∧
               task = sync_task_of now workflowKey activityInfo)
          (present_items activityInfos items)
          (convertSyncActivityInfos_range now workflowKey activityInfos items).
Proof.
  induction items as [|item items IH]; [constructor|].
  rewrite convertSyncActivityInfos_range_cons. unfold present_items in *.
  destruct (activityInfos !! item) as [activityInfo|] eqn:Hitem.
  - rewrite filter_cons_True by (rewrite Hitem; eauto).
    constructor; [eauto|exact IH].
  - rewrite filter_cons_False by (rewrite Hitem; apply is_Some_None).
    exact IH.
Qed.

Lemma present_exactly (inputs : gset Z) items :
  range_of_set inputs items →
  NoDup (present_items activityInfos items) ∧
  (∀ item, item ∈ present_items activityInfos items
           ↔ item ∈ inputs ∧ is_Some (activityInfos !! item)) ∧
  length (present_items activityInfos items)
  = size (filter (λ item, is_Some (activityInfos !! item)) inputs).
Proof.
  unfold range_of_set, present_items. intros Hitems.
  assert (Hnodup : NoDup items) by (rewrite Hitems; apply NoDup_elements).
  assert (Hmem : ∀ item,
            item ∈ filter (λ item, is_Some (activityInfos !! item)) items
            ↔ item ∈ inputs ∧ is_Some (activityInfos !! item)).
  { intros item. rewrite list_elem_of_filter, Hitems, elem_of_elements.
    tauto. }
  split; [by apply NoDup_filter|]. split; [exact Hmem|].
  unfold size, set_size; simpl. apply Permutation_length.
  apply NoDup_Permutation; [by apply NoDup_filter|apply NoDup_elements|].
  intros item. rewrite Hmem, elem_of_elements, elem_of_filter. tauto.
Qed.

End sync_activity.

(** C5.  For every activity snapshot and every set of pending IDs, in
    whatever order the loop visits the set, [convertSyncActivityInfos]
    returns one task for each pending ID that the snapshot knows, with that
    activity's [Version] and [ScheduleId], and nothing else: the tasks
    correspond one to one to the list [present] of the pending IDs present in
    the snapshot, each of them once.  A pending ID absent from the snapshot
    yields no task, and no error. *)
Theorem convertSyncActivityInfos_one_task_per_present_id
    (now : time.Time) (workflowKey : definition.WorkflowKey)
    (activityInfos : gmap Z persistencespb.ActivityInfo)
    (inputs : gset Z) (items : list Z) :
  range_of_set inputs items →
  ∃ present : list Z,
    NoDup present ∧
    (∀ item, item ∈ present
             ↔ item ∈ inputs ∧ is_Some (activityInfos !! item)) ∧
    Forall2 (λ item task,
               ∃ activityInfo,
                 activityInfos !! item = Some activityInfo ∧
                 SyncActivityTask.Version task
                 = persistencespb.Version activityInfo ∧
                 SyncActivityTask.ScheduledID task
                 = persistencespb.ScheduleId activityInfo)
            present
            (convertSyncActivityInfos_range now workflowKey activityInfos items) ∧
    length (convertSyncActivityInfos_range now workflowKey activityInfos items)
    = size (filter (λ item, is_Some (activityInfos !! item)) inputs).
Proof.
  intros Hitems.
  destruct (present_exactly activityInfos inputs items Hitems)
    as (Hnodup & Hmem & Hlen).
  pose proof (convertSyncActivityInfos_range_present
                now workflowKey activityInfos items) as Htasks.
  exists (present_items activityInfos items).
  split; [exact Hnodup|]. split; [exact Hmem|]. split.
  - eapply Forall2_impl; [exact Htasks|].
    intros item task (activityInfo & Hitem & ->). by exists activityInfo.
  - rewrite <- Hlen. symmetry. by eapply Forall2_length.
Qed.

Lemma convertSyncActivityInfos_one_task_per_present_id_witness :
  range_of_set sample.pendingIDs (elements sample.pendingIDs) ∧
  ∃ present : list Z,
    NoDup present ∧
    (∀ item, item ∈ present
             ↔ item ∈ sample.pendingIDs
               ∧ is_Some (sample.activityInfos !! item)) ∧
    Forall2 (λ item task,
               ∃ activityInfo,
                 sample.activityInfos !! item = Some activityInfo ∧
                 SyncActivityTask.Version task
                 = persistencespb.Version activityInfo ∧
                 SyncActivityTask.ScheduledID task
                 = persistencespb.ScheduleId activityInfo)
            present
            (convertSyncActivityInfos
               77 sample.workflowKey sample.activityInfos sample.pendingIDs) ∧
    length (convertSyncActivityInfos
              77 sample.workflowKey sample.activityInfos sample.pendingIDs)
    = size (filter (λ item, is_Some (sample.activityInfos !! item))
                   sample.pendingIDs).
Proof.
  assert (Hitems : range_of_set sample.pendingIDs (elements sample.pendingIDs)).
  { unfold range_of_set. reflexivity. }
  split; [exact Hitems|].
  exact (convertSyncActivityInfos_one_task_per_present_id
           77 sample.workflowKey sample.activityInfos sample.pendingIDs
           _ Hitems).
Defined.

(** The sync-activity example of the spec: activityInfos =
    {5: {Version:7, ScheduleId:5}} and pendingIDs = {5, 9} give one task, for
    ID 5, with Version 7 and ScheduledID 5. *)
Example convertSyncActivityInfos_sample :
  convertSyncActivityInfos
    77 sample.workflowKey sample.activityInfos sample.pendingIDs
  = [ {| SyncActivityTask.WorkflowKey := sample.workflowKey;
         SyncActivityTask.VisibilityTimestamp := 77;
         SyncActivityTask.TaskID := 0;
         SyncActivityTask.Version := 7;
         SyncActivityTask.ScheduledID := 5 |} ].
Proof. vm_compute. reflexivity. Qed.

(** C10.  Every task that [convertSyncActivityInfos] emits, in whatever order
    the loop visits the pending IDs, has its [VisibilityTimestamp] equal to
    the argument [now] and its [WorkflowKey] equal to the argument
    [workflowKey]. *)
Theorem convertSyncActivityInfos_now_and_workflowKey
    (now : time.Time) (workflowKey : definition.WorkflowKey)
    (activityInfos : gmap Z persistencespb.ActivityInfo)
    (inputs : gset Z) :
  (∀ items,
     Forall (λ task,
               SyncActivityTask.VisibilityTimestamp task = now ∧
               SyncActivityTask.WorkflowKey task = workflowKey)
            (convertSyncActivityInfos_range now workflowKey activityInfos items)) ∧
  Forall (λ task,
            SyncActivityTask.VisibilityTimestamp task = now ∧
            SyncActivityTask.WorkflowKey task = workflowKey)
         (convertSyncActivityInfos now workflowKey activityInfos inputs).
Proof.
  assert (Hall : ∀ items,
     Forall (λ task,
               SyncActivityTask.VisibilityTimestamp task = now ∧
               SyncActivityTask.WorkflowKey task = workflowKey)
            (convertSyncActivityInfos_range now workflowKey activityInfos items)).
  { intros items.
    pose proof (convertSyncActivityInfos_range_present
                  now workflowKey activityInfos items) as Htasks.
    revert Htasks.
    generalize (convertSyncActivityInfos_range now workflowKey activityInfos items).
    generalize (present_items activityInfos items).
    intros present outputs Htasks.
    induction Htasks as [|item task present outputs (activityInfo & _ & ->) _ IH];
      constructor; [done|exact IH]. }
  split; [exact Hall|apply Hall].
Qed.

(** ** Keys and the frame of the methods *)

(** C6.  [GetKey] of a [StartChildExecutionTask], whose category is Transfer,
    of type Immediate, is the pair (epoch zero, [TaskID]): its [FireTime] is
    [time.Unix(0, 0)], the instant 0, whatever the task's
    [VisibilityTimestamp] is set to, and its [TaskID] is the task's.  The
    same holds of every task object whose category is of type Immediate. *)
Theorem GetKey_immediate :
  (∀ u : StartChildExecutionTask.t,
     GetCategory u = CategoryTransfer ∧
     Category_Type (GetCategory u) = CategoryTypeImmediate ∧
     GetKey u = {| FireTime := time.Unix 0 0; TaskID := GetTaskID u |} ∧
     GetTaskID u = StartChildExecutionTask.TaskID u ∧
     ∀ timestamp : time.Time,
       GetKey (SetVisibilityTime timestamp u) = GetKey u) ∧
  time.Unix 0 0 = 0 ∧
  (∀ o : object,
     Category_Type (GetCategory o) = CategoryTypeImmediate →
     GetKey o = {| FireTime := time.Unix 0 0; TaskID := GetTaskID o |} ∧
     ∀ timestamp : time.Time,
       GetKey (SetVisibilityTime timestamp o) = GetKey o).
Proof.
  split; [|split; [reflexivity|]].
  - intros u. repeat split.
  - intros [u|u] Himm.
    + repeat split.
    + simpl in *. unfold OtherTask.GetKey, OtherTask.GetCategory in *.
      simpl. rewrite Himm. repeat split.
Qed.

Lemma GetKey_immediate_witness :
  Category_Type (GetCategory sample.t1) = CategoryTypeImmediate ∧
  GetKey sample.t1 = {| FireTime := 0; TaskID := 41 |} ∧
  GetKey (SetVisibilityTime 500 sample.t1) = {| FireTime := 0; TaskID := 41 |}.
Proof.
  assert (Himm : Category_Type (GetCategory sample.t1) = CategoryTypeImmediate)
    by reflexivity.
  destruct GetKey_immediate as (_ & _ & Hobject).
  destruct (Hobject sample.t1 Himm) as [Hkey Hany].
  split; [exact Himm|]. split; [exact Hkey|].
  rewrite (Hany 500). exact Hkey.
Defined.

(** C7.  For a [StartChildExecutionTask] [u] behind the reference [task]:
    [SetVersion], [SetTaskID] and [SetVisibilityTime] each replace the object
    by one that differs from [u] in the setter's own field only
    (the [WorkflowKey], the payload fields [TargetNamespaceID],
    [TargetWorkflowID] and [InitiatedID], and the other two settable fields
    are those of [u]) and leave every other object of the heap as it is;
    [GetKey], [GetCategory] and the three getters return their result and
    leave the whole heap as it is. *)
Theorem StartChildExecutionTask_frame
    (h : heap) (task : ref) (u : StartChildExecutionTask.t)
    (version id : Z) (timestamp : time.Time) :
  h !! task = Some (StartChildExecution u) →
  (∃ u',
     call_SetVersion task version h
     = Some ((), <[task := StartChildExecution u']> h) ∧
     StartChildExecutionTask.Version u' = version ∧
     StartChildExecutionTask.TaskID u' = StartChildExecutionTask.TaskID u ∧
     StartChildExecutionTask.VisibilityTimestamp u'
     = StartChildExecutionTask.VisibilityTimestamp u ∧
     StartChildExecutionTask.WorkflowKey u' = StartChildExecutionTask.WorkflowKey u ∧
     StartChildExecutionTask.TargetNamespaceID u'
     = StartChildExecutionTask.TargetNamespaceID u ∧
     StartChildExecutionTask.TargetWorkflowID u'
     = StartChildExecutionTask.TargetWorkflowID u ∧
     StartChildExecutionTask.InitiatedID u' = StartChildExecutionTask.InitiatedID u) ∧
  (∃ u',
     call_SetTaskID task id h
     = Some ((), <[task := StartChildExecution u']> h) ∧
     StartChildExecutionTask.TaskID u' = id ∧
     StartChildExecutionTask.Version u' = StartChildExecutionTask.Version u ∧
     StartChildExecutionTask.VisibilityTimestamp u'
     = StartChildExecutionTask.VisibilityTimestamp u ∧
     StartChildExecutionTask.WorkflowKey u' = StartChildExecutionTask.WorkflowKey u ∧
     StartChildExecutionTask.TargetNamespaceID u'
     = StartChildExecutionTask.TargetNamespaceID u ∧
     StartChildExecutionTask.TargetWorkflowID u'
     = StartChildExecutionTask.TargetWorkflowID u ∧
     StartChildExecutionTask.InitiatedID u' = StartChildExecutionTask.InitiatedID u) ∧
  (∃ u',
     call_SetVisibilityTime task timestamp h
     = Some ((), <[task := StartChildExecution u']> h) ∧
     StartChildExecutionTask.VisibilityTimestamp u' = timestamp ∧
     StartChildExecutionTask.Version u' = StartChildExecutionTask.Version u ∧
     StartChildExecutionTask.TaskID u' = StartChildExecutionTask.TaskID u ∧
     StartChildExecutionTask.WorkflowKey u' = StartChildExecutionTask.WorkflowKey u ∧
     StartChildExecutionTask.TargetNamespaceID u'
     = StartChildExecutionTask.TargetNamespaceID u ∧
     StartChildExecutionTask.TargetWorkflowID u'
     = StartChildExecutionTask.TargetWorkflowID u ∧
     StartChildExecutionTask.InitiatedID u' = StartChildExecutionTask.InitiatedID u) ∧
  (∀ (o' : object) (other : ref),
     other ≠ task → (<[task := o']> h) !! other = h !! other) ∧
  call_GetKey task h
  = Some ({| FireTime := time.Unix 0 0;
             TaskID := StartChildExecutionTask.TaskID u |}, h) ∧
  call_GetCategory task h = Some (CategoryTransfer, h) ∧
  call_GetVersion task h = Some (StartChildExecutionTask.Version u, h) ∧
  call_GetTaskID task h = Some (StartChildExecutionTask.TaskID u, h) ∧
  call_GetVisibilityTime task h
  = Some (StartChildExecutionTask.VisibilityTimestamp u, h).
Proof.
  intros Hu.
  unfold call_SetVersion, call_SetTaskID, call_SetVisibilityTime, call_setter,
    call_GetKey, call_GetCategory, call_GetVersion, call_GetTaskID,
    call_GetVisibilityTime, call_getter.
  rewrite Hu.
  split; [eexists; repeat split|].
  split; [eexists; repeat split|].
  split; [eexists; repeat split|].
  split; [intros o' other Hne; by apply lookup_insert_ne|].
  repeat split.
Qed.

Lemma StartChildExecutionTask_frame_witness :
  call_SetVersion 1%positive 9 sample.objects
  = Some ((), <[1%positive :=
                  StartChildExecution
                    {| StartChildExecutionTask.WorkflowKey := sample.workflowKey;
                       StartChildExecutionTask.VisibilityTimestamp := 10;
                       StartChildExecutionTask.TaskID := 41;
                       StartChildExecutionTask.TargetNamespaceID := "target-namespace";
                       StartChildExecutionTask.TargetWorkflowID := "target-workflow";
                       StartChildExecutionTask.InitiatedID := 4;
                       StartChildExecutionTask.Version := 9 |}]> sample.objects) ∧
  call_GetKey 1%positive sample.objects
  = Some ({| FireTime := 0; TaskID := 41 |}, sample.objects).
Proof.
  assert (Hu : sample.objects !! 1%positive = Some sample.t1) by reflexivity.
  destruct (StartChildExecutionTask_frame
              sample.objects 1%positive _ 9 7 500 Hu)
    as ((u' & Hset & Hversion & Hid & Hvis & Hkey & Hns & Hwf & Hinit)
        & _ & _ & _ & HGetKey & _).
  split; [|exact HGetKey].
  rewrite Hset. destruct u'; simpl in *. by subst.
Defined.

(** ** The replication-status snapshot *)

(** C8.  The message [ShardReplicationStatus] holds what the data model
    lists, no more and no less: a shard ID, the maximum replication task ID,
    the shard-local time, for each remote cluster name the acknowledged task
    ID and the visibility time of the acknowledged task, and for each
    namespace the replication-task ID at which it entered hand-over state.
    Converting a message to that tuple and back, or a tuple to the message
    and back, gives what one started from, and the tuple's components are
    the message's fields. *)
Theorem ShardReplicationStatus_fields :
  (∀ s, historyservice.of_spec (historyservice.to_spec s) = s) ∧
  (∀ p, historyservice.to_spec (historyservice.of_spec p) = p) ∧
  (∀ s,
     historyservice.to_spec s
     = (historyservice.shard_id s,
        historyservice.max_replication_task_id s,
        historyservice.shard_local_time s,
        (λ c, (historyservice.acked_task_id c,
               historyservice.acked_task_visibility_time c))
          <$> historyservice.remote_clusters s,
        historyservice.handover_replication_task_id
          <$> historyservice.handover_namespaces s)).
Proof.
  split; [|split; [|done]].
  - intros [shard maxid local clusters namespaces].
    unfold historyservice.of_spec, historyservice.to_spec; simpl. f_equal.
    + apply map_eq. intros cluster. rewrite !lookup_fmap.
      by destruct (clusters !! cluster) as [[]|].
    + apply map_eq. intros namespace. rewrite !lookup_fmap.
      by destruct (namespaces !! namespace) as [[]|].
  - intros [[[[shard maxid] local] clusters] namespaces].
    unfold historyservice.HandoverInfo_spec in *.
    unfold historyservice.of_spec, historyservice.to_spec; simpl. f_equal; [f_equal|].
    + apply map_eq. intros cluster. rewrite !lookup_fmap.
      by destruct (clusters !! cluster) as [[]|].
    + apply map_eq. intros namespace. rewrite !lookup_fmap.
      by destruct (namespaces !! namespace).
Qed.

(** * Further properties of the stamping rule *)

Section stamped_facts.

Variables (version : Z) (timestamp : time.Time).

Lemma stamp_stamped category versioned timed o :
  stamp version timestamp category (stamped version timestamp versioned timed o)
  = stamped version timestamp true
      (timed || bool_decide (Category_Type category = CategoryTypeImmediate)) o.
Proof.
  unfold stamp, stamped.
  destruct (decide (Category_Type category = CategoryTypeImmediate)) as [Himm|Himm].
  - rewrite (bool_decide_eq_true_2 _ Himm), orb_true_r.
    by destruct o, versioned, timed.
  - rewrite (bool_decide_eq_false_2 _ Himm), orb_false_r.
    by destruct o, versioned, timed.
Qed.

Lemma stamp_occurrences_stamped category task ts versioned timed o :
  stamp_occurrences version timestamp category task ts
    (stamped version timestamp versioned timed o)
  = if bool_decide (task ∈ ts)
    then stamped version timestamp true
           (timed || bool_decide (Category_Type category = CategoryTypeImmediate)) o
    else stamped version timestamp versioned timed o.
Proof.
  unfold stamp_occurrences. revert versioned timed.
  induction ts as [|task' ts IH]; intros versioned timed; cbn [foldl].
  - by rewrite bool_decide_eq_false_2 by apply not_elem_of_nil.
  - destruct (decide (task' = task)) as [->|Hne].
    + rewrite stamp_stamped, IH.
      rewrite (bool_decide_eq_true_2 (task ∈ task :: ts)) by left.
      destruct (bool_decide (task ∈ ts)); [|done].
      by rewrite <- orb_assoc, orb_diag.
    + rewrite IH. destruct (decide (task ∈ ts)) as [Hin|Hin].
      * rewrite (bool_decide_eq_true_2 _ Hin).
        by rewrite (bool_decide_eq_true_2 (task ∈ task' :: ts)) by (by right).
      * rewrite (bool_decide_eq_false_2 _ Hin).
        rewrite (bool_decide_eq_false_2 (task ∈ task' :: ts)); [done|].
        intros [?|?]%elem_of_cons; congruence.
Qed.

(** The visits of all entries bring an object to the closed form. *)
Lemma visits_stamped task entries versioned timed o :
  foldl (visit version timestamp task)
        (stamped version timestamp versioned timed o) entries
  = stamped version timestamp
      (versioned || listed task entries)
      (timed || listed_immediate task entries) o.
Proof.
  revert versioned timed.
  induction entries as [|[category ts] entries IH]; intros versioned timed.
  - simpl. by rewrite !orb_false_r.
  - cbn [foldl]. unfold visit at 2. cbn [fst snd].
    unfold listed, listed_immediate. cbn [existsb fst snd].
    fold (listed task entries). fold (listed_immediate task entries).
    destruct (decide (category = CategoryReplication)) as [Hrep|Hrep].
    + rewrite IH.
      rewrite (bool_decide_eq_false_2 (category ≠ CategoryReplication)) by auto.
      done.
    + rewrite (bool_decide_eq_true_2 _ Hrep).
      rewrite stamp_occurrences_stamped.
      destruct (bool_decide (task ∈ ts)); rewrite IH.
      * cbn [andb orb]. rewrite andb_true_r, orb_true_r. by rewrite orb_assoc.
      * cbn [andb orb]. by rewrite andb_false_r.
Qed.

Lemma visits_closed_form task entries o :
  foldl (visit version timestamp task) o entries
  = stamped version timestamp
      (listed task entries) (listed_immediate task entries) o.
Proof. apply (visits_stamped task entries false false o). Qed.

End stamped_facts.


Section setTaskInfo_outcome.

Variables (version : Z) (timestamp : time.Time).

Lemma listed_spec task entries :
  listed task entries = true ↔
  ∃ category ts,
    (category, ts) ∈ entries ∧ category ≠ CategoryReplication ∧ task ∈ ts.
Proof.
  unfold listed. rewrite existsb_exists. split.
  - intros ([category ts] & Hin & Hb). cbn [fst snd] in Hb.
    apply andb_true_iff in Hb as [Hne Hts].
    apply bool_decide_eq_true_1 in Hne. apply bool_decide_eq_true_1 in Hts.
    exists category, ts. by rewrite list_elem_of_In.
  - intros (category & ts & Hin & Hne & Hts).
    exists (category, ts). rewrite <- list_elem_of_In. split; [done|].
    cbn [fst snd]. by rewrite !bool_decide_eq_true_2.
Qed.

Lemma listed_immediate_spec task entries :
  listed_immediate task entries = true ↔
  ∃ category ts,
    (category, ts) ∈ entries ∧ category ≠ CategoryReplication ∧
    Category_Type category = CategoryTypeImmediate ∧ task ∈ ts.
Proof.
  unfold listed_immediate. rewrite existsb_exists. split.
  - intros ([category ts] & Hin & Hb). cbn [fst snd] in Hb.
    apply andb_true_iff in Hb as [Hb Hts].
    apply andb_true_iff in Hb as [Hne Himm].
    apply bool_decide_eq_true_1 in Hne. apply bool_decide_eq_true_1 in Hts.
    apply bool_decide_eq_true_1 in Himm.
    exists category, ts. by rewrite list_elem_of_In.
  - intros (category & ts & Hin & Hne & Himm & Hts).
    exists (category, ts). rewrite <- list_elem_of_In. split; [done|].
    cbn [fst snd]. by rewrite !bool_decide_eq_true_2.
Qed.

(** Neither depends on the order of the entries. *)
Lemma listed_perm task entries1 entries2 :
  entries1 ≡ₚ entries2 → listed task entries1 = listed task entries2.
Proof.
  intros Hperm. apply eq_true_iff_eq. rewrite !listed_spec.
  by setoid_rewrite Hperm.
Qed.

Lemma listed_immediate_perm task entries1 entries2 :
  entries1 ≡ₚ entries2 →
  listed_immediate task entries1 = listed_immediate task entries2.
Proof.
  intros Hperm. apply eq_true_iff_eq. rewrite !listed_immediate_spec.
  by setoid_rewrite Hperm.
Qed.

Lemma stampable_perm (h : heap) entries1 entries2 :
  entries1 ≡ₚ entries2 → stampable h entries1 → stampable h entries2.
Proof. unfold stampable. by intros ->. Qed.

(** A returning inner loop has met no [nil] task. *)
Lemma inner_loop_returns category ts (h h' : heap) :
  for_range ts (λ task,
    call_SetVersion task version ;;
    if decide (Category_Type category = CategoryTypeImmediate)
    then call_SetVisibilityTime task timestamp
    else mret ()) h = Some ((), h') →
  Forall (λ task, is_Some (h !! task)) ts.
Proof.
  revert h. induction ts as [|x ts IH]; intros h Hrun; [constructor|].
  destruct (h !! x) as [o|] eqn:Hx.
  - cbn [for_range] in Hrun. unfold mbind at 1, Go_bind at 1 in Hrun.
    rewrite (inner_body_run version timestamp category x h o Hx) in Hrun.
    constructor; [by rewrite Hx|].
    eapply Forall_impl; [exact (IH _ Hrun)|].
    intros task. cbn beta. rewrite lookup_insert.
    destruct (decide (x = task)) as [<-|_]; [by rewrite Hx|done].
  - exfalso. cbn [for_range] in Hrun.
    unfold mbind at 1, Go_bind at 1, mbind at 1, Go_bind at 1,
      call_SetVersion, call_setter in Hrun.
    by rewrite Hx in Hrun.
Qed.

(** A returning [setTaskInfo] has met no [nil] task outside Replication. *)
Lemma setTaskInfo_range_returns entries (h h' : heap) :
  setTaskInfo_range version timestamp entries h = Some ((), h') →
  stampable h entries.
Proof.
  revert h. induction entries as [|[category ts] entries IH]; intros h Hrun;
    [constructor|].
  unfold setTaskInfo_range in Hrun. cbn [for_range] in Hrun.
  unfold mbind at 1, Go_bind at 1 in Hrun.
  destruct (decide (category = CategoryReplication)) as [Hrep|Hrep].
  - constructor; [done|]. by apply IH.
  - match type of Hrun with
    | match ?run with _ => _ end = _ => destruct run as [[[] h1]|] eqn:Hinner
    end; [|done].
    pose proof (inner_loop_returns category ts h h1 Hinner) as Hts.
    constructor; [done|].
    destruct (inner_loop_run version timestamp category ts h Hts)
      as (h1' & Hinner' & Hh1).
    rewrite Hinner in Hinner'. injection Hinner' as <-.
    eapply Forall_impl; [exact (IH h1 Hrun)|].
    intros entry Hentry Hne.
    eapply Forall_impl; [exact (Hentry Hne)|].
    intros task. cbn beta. rewrite Hh1. by rewrite fmap_is_Some.
Qed.

(** [setTaskInfo] in full: it panics when a task outside Replication is
    [nil], and otherwise leaves each object in the closed form. *)
Lemma setTaskInfo_range_outcome entries (h : heap) :
  (stampable h entries →
   ∃ h',
     setTaskInfo_range version timestamp entries h = Some ((), h') ∧
     ∀ task,
       h' !! task
       = stamped version timestamp
           (listed task entries) (listed_immediate task entries)
         <$> h !! task) ∧
  (¬ stampable h entries →
   setTaskInfo_range version timestamp entries h = None).
Proof.
  split.
  - intros Hlive.
    destruct (setTaskInfo_range_run version timestamp entries h Hlive)
      as (h' & Hrun & Hh').
    exists h'. split; [done|]. intros task. rewrite Hh'.
    destruct (h !! task) as [o|]; [|done]. cbn.
    by rewrite visits_closed_form.
  - intros Hdead.
    destruct (setTaskInfo_range version timestamp entries h)
      as [[[] h']|] eqn:Hrun; [|done].
    exfalso. apply Hdead. by eapply setTaskInfo_range_returns.
Qed.

End setTaskInfo_outcome.


Section object_eta.

Variables (version version' : Z) (timestamp timestamp' : time.Time).

(** Writing back what a getter returns changes nothing. *)
Lemma SetVersion_GetVersion (o : object) : SetVersion (GetVersion o) o = o.
Proof. by destruct o as [[]|[]]. Qed.

Lemma SetVisibilityTime_GetVisibilityTime (o : object) :
  SetVisibilityTime (GetVisibilityTime o) o = o.
Proof. by destruct o as [[]|[]]. Qed.

(** An object in closed form is the object with its [Version] and its
    [VisibilityTimestamp] reassigned, to new or to old values. *)
Lemma stamped_shape versioned timed (o : object) :
  ∃ v t, stamped version timestamp versioned timed o
         = SetVisibilityTime t (SetVersion v o).
Proof.
  unfold stamped. destruct versioned, timed.
  - by exists version, timestamp.
  - exists version, (GetVisibilityTime o).
    rewrite <- (GetVisibilityTime_SetVersion version o).
    by rewrite SetVisibilityTime_GetVisibilityTime.
  - exists (GetVersion o), timestamp. by rewrite SetVersion_GetVersion.
  - exists (GetVersion o), (GetVisibilityTime o).
    by rewrite SetVersion_GetVersion, SetVisibilityTime_GetVisibilityTime.
Qed.

(** A later stamp overrides an earlier one. *)
Lemma stamped_stamped versioned timed (o : object) :
  stamped version' timestamp' versioned timed
    (stamped version timestamp versioned timed o)
  = stamped version' timestamp' versioned timed o.
Proof. unfold stamped. by destruct o, versioned, timed. Qed.

End object_eta.

(** X2.  [setTaskInfo] returns exactly when no task filed under a category
    other than Replication is [nil]; otherwise it panics.  A [nil] task under
    Replication is never called. *)
Theorem setTaskInfo_returns_iff
    (version : Z) (timestamp : time.Time)
    (insertTasks : gmap Category (list ref))
    (entries : list (Category * list ref)) (h : heap) :
  range_of insertTasks entries →
  is_Some (setTaskInfo_range version timestamp entries h) ↔
  ∀ category tasksByCategory task,
    insertTasks !! category = Some tasksByCategory →
    category ≠ CategoryReplication →
    task ∈ tasksByCategory →
    is_Some (h !! task).
Proof.
  intros Hrange.
  assert (Hiff : stampable h entries ↔
    ∀ category ts task,
      insertTasks !! category = Some ts → category ≠ CategoryReplication →
      task ∈ ts → is_Some (h !! task)).
  { unfold stampable. rewrite Forall_forall. split.
    - intros Hall category ts task Hts Hne Hin.
      apply (range_of_lookup _ _ _ _ Hrange) in Hts.
      specialize (Hall _ Hts Hne). rewrite Forall_forall in Hall. auto.
    - intros Hall [category ts] Hentry Hne. cbn [fst snd] in *.
      apply (range_of_lookup _ _ _ _ Hrange) in Hentry.
      apply Forall_forall. intros task Hin. by eapply Hall. }
  rewrite <- Hiff.
  destruct (setTaskInfo_range_outcome version timestamp entries h)
    as [Hsome Hnone].
  split.
  - intros [[[] h'] Hrun]. by eapply setTaskInfo_range_returns.
  - intros Hlive. destruct (Hsome Hlive) as (h' & -> & _). by eexists.
Qed.

Lemma setTaskInfo_returns_iff_witness :
  range_of sample.insertTasks (map_to_list sample.insertTasks) ∧
  (is_Some (setTaskInfo 9 500 sample.insertTasks (delete 1%positive sample.objects)) ↔
   ∀ category tasksByCategory task,
     sample.insertTasks !! category = Some tasksByCategory →
     category ≠ CategoryReplication →
     task ∈ tasksByCategory →
     is_Some (delete 1%positive sample.objects !! task)).
Proof.
  assert (Hrange : range_of sample.insertTasks (map_to_list sample.insertTasks)).
  { unfold range_of. reflexivity. }
  split; [exact Hrange|].
  exact (setTaskInfo_returns_iff 9 500 sample.insertTasks _
           (delete 1%positive sample.objects) Hrange).
Defined.

(** X3.  The outcome of [setTaskInfo] does not depend on the order in which
    [range] visits the map: any two orders give the same heap, or panic
    both. *)
Theorem setTaskInfo_order_irrelevant
    (version : Z) (timestamp : time.Time)
    (insertTasks : gmap Category (list ref))
    (entries1 entries2 : list (Category * list ref)) (h : heap) :
  range_of insertTasks entries1 →
  range_of insertTasks entries2 →
  setTaskInfo_range version timestamp entries1 h
  = setTaskInfo_range version timestamp entries2 h.
Proof.
  unfold range_of. intros Hrange1 Hrange2.
  assert (Hperm : entries1 ≡ₚ entries2) by (by rewrite Hrange1, Hrange2).
  destruct (setTaskInfo_range_outcome version timestamp entries1 h)
    as [Hsome1 Hnone1].
  destruct (setTaskInfo_range_outcome version timestamp entries2 h)
    as [Hsome2 Hnone2].
  destruct (decide (stampable h entries1)) as [Hlive|Hdead].
  - destruct (Hsome1 Hlive) as (h1 & -> & Hh1).
    destruct (Hsome2 (stampable_perm h _ _ Hperm Hlive)) as (h2 & -> & Hh2).
    do 2 f_equal. apply map_eq. intros task. rewrite Hh1, Hh2.
    by rewrite (listed_perm task _ _ Hperm),
               (listed_immediate_perm task _ _ Hperm).
  - rewrite (Hnone1 Hdead). symmetry. apply Hnone2.
    intros Hlive. apply Hdead. by apply (stampable_perm h entries2).
Qed.

Lemma setTaskInfo_order_irrelevant_witness :
  range_of sample.insertTasks (map_to_list sample.insertTasks) ∧
  range_of sample.insertTasks (reverse (map_to_list sample.insertTasks)) ∧
  setTaskInfo_range 9 500 (map_to_list sample.insertTasks) sample.objects
  = setTaskInfo_range 9 500 (reverse (map_to_list sample.insertTasks))
      sample.objects.
Proof.
  assert (Hrange : range_of sample.insertTasks (map_to_list sample.insertTasks)).
  { unfold range_of. reflexivity. }
  assert (Hreverse :
    range_of sample.insertTasks (reverse (map_to_list sample.insertTasks))).
  { unfold range_of. apply reverse_Permutation. }
  split; [exact Hrange|]. split; [exact Hreverse|].
  exact (setTaskInfo_order_irrelevant 9 500 sample.insertTasks _ _
           sample.objects Hrange Hreverse).
Defined.

(** X4.  What a returning [setTaskInfo] never does: it creates and drops no
    object; on each object it reassigns at most [Version] and
    [VisibilityTimestamp], so [TaskID] and category stay; and an object that
    the map lists under no category other than Replication is left as it
    is. *)
Theorem setTaskInfo_frame
    (version : Z) (timestamp : time.Time)
    (insertTasks : gmap Category (list ref))
    (entries : list (Category * list ref)) (h h' : heap) :
  range_of insertTasks entries →
  setTaskInfo_range version timestamp entries h = Some ((), h') →
  dom h' = dom h ∧
  (∀ task o,
     h !! task = Some o →
     ∃ o' v t,
       h' !! task = Some o' ∧
       o' = SetVisibilityTime t (SetVersion v o) ∧
       GetTaskID o' = GetTaskID o ∧
       GetCategory o' = GetCategory o) ∧
  (∀ task,
     (∀ category tasksByCategory,
        insertTasks !! category = Some tasksByCategory →
        task ∈ tasksByCategory →
        category = CategoryReplication) →
     h' !! task = h !! task).
Proof.
  intros Hrange Hrun.
  pose proof (setTaskInfo_range_returns _ _ _ _ _ Hrun) as Hlive.
  destruct (setTaskInfo_range_outcome version timestamp entries h)
    as [Hsome _].
  destruct (Hsome Hlive) as (h'' & Hrun' & Hh').
  rewrite Hrun in Hrun'. injection Hrun' as <-.
  split; [|split].
  - apply set_eq. intros task. rewrite !elem_of_dom, Hh'.
    by rewrite fmap_is_Some.
  - intros task o Ho. rewrite Hh', Ho.
    destruct (stamped_shape version timestamp
                (listed task entries) (listed_immediate task entries) o)
      as (v & t & Heq).
    eexists _, v, t. split; [reflexivity|]. split; [exact Heq|].
    rewrite Heq. by destruct o.
  - intros task Hrep. rewrite Hh'.
    assert (Hno : listed task entries = false).
    { apply not_true_is_false. intros (category & ts & Hin & Hne & Hts)%listed_spec.
      apply Hne. apply (Hrep category ts); [|done].
      by apply (range_of_lookup _ _ _ _ Hrange). }
    assert (Hnoimm : listed_immediate task entries = false).
    { apply not_true_is_false.
      intros (category & ts & Hin & Hne & _ & Hts)%listed_immediate_spec.
      apply Hne. apply (Hrep category ts); [|done].
      by apply (range_of_lookup _ _ _ _ Hrange). }
    rewrite Hno, Hnoimm. by destruct (h !! task).
Qed.

Lemma setTaskInfo_frame_witness :
  range_of sample.insertTasks (map_to_list sample.insertTasks) ∧
  setTaskInfo 9 500 sample.insertTasks sample.objects
  = Some ((), sample_stamped.objects) ∧
  dom sample_stamped.objects = dom sample.objects ∧
  ∀ task o,
    sample.objects !! task = Some o →
    ∃ o' v t,
      sample_stamped.objects !! task = Some o' ∧
      o' = SetVisibilityTime t (SetVersion v o) ∧
      GetTaskID o' = GetTaskID o ∧
      GetCategory o' = GetCategory o.
Proof.
  assert (Hrange : range_of sample.insertTasks (map_to_list sample.insertTasks)).
  { unfold range_of. reflexivity. }
  assert (Hrun : setTaskInfo 9 500 sample.insertTasks sample.objects
                 = Some ((), sample_stamped.objects)).
  { vm_compute. reflexivity. }
  destruct (setTaskInfo_frame 9 500 sample.insertTasks _ sample.objects
              sample_stamped.objects Hrange Hrun) as (Hdom & Hshape & _).
  split; [exact Hrange|]. split; [exact Hrun|]. split; [exact Hdom|].
  exact Hshape.
Defined.


(** X5.  Stamping again overrides: after a [setTaskInfo] that returned, a
    second [setTaskInfo] on the same map, with whatever version and commit
    time, ends as if the first had not run.  With the same version and commit
    time it changes nothing: [setTaskInfo] is idempotent. *)
Theorem setTaskInfo_restamp
    (version1 version2 : Z) (timestamp1 timestamp2 : time.Time)
    (entries : list (Category * list ref)) (h h1 : heap) :
  setTaskInfo_range version1 timestamp1 entries h = Some ((), h1) →
  setTaskInfo_range version2 timestamp2 entries h1
  = setTaskInfo_range version2 timestamp2 entries h ∧
  setTaskInfo_range version1 timestamp1 entries h1 = Some ((), h1).
Proof.
  intros Hrun.
  pose proof (setTaskInfo_range_returns _ _ _ _ _ Hrun) as Hlive.
  destruct (setTaskInfo_range_outcome version1 timestamp1 entries h)
    as [Hsome _].
  destruct (Hsome Hlive) as (h1' & Hrun' & Hh1).
  rewrite Hrun in Hrun'. injection Hrun' as <-.
  assert (Hlive1 : stampable h1 entries).
  { eapply Forall_impl; [exact Hlive|]. intros entry Hentry Hne.
    eapply Forall_impl; [exact (Hentry Hne)|]. intros task. cbn beta.
    by rewrite Hh1, fmap_is_Some. }
  assert (Hagain : ∀ version timestamp,
    setTaskInfo_range version timestamp entries h1
    = setTaskInfo_range version timestamp entries h).
  { intros version timestamp.
    destruct (setTaskInfo_range_outcome version timestamp entries h)
      as [Hsome2 _].
    destruct (setTaskInfo_range_outcome version timestamp entries h1)
      as [Hsome2' _].
    destruct (Hsome2 Hlive) as (h2 & -> & Hh2).
    destruct (Hsome2' Hlive1) as (h2' & -> & Hh2').
    do 2 f_equal. apply map_eq. intros task. rewrite Hh2', Hh2, Hh1.
    destruct (h !! task) as [o|]; [|done]. cbn.
    by rewrite stamped_stamped. }
  split; [apply Hagain|]. by rewrite Hagain.
Qed.

Lemma setTaskInfo_restamp_witness :
  setTaskInfo 9 500 sample.insertTasks sample.objects
  = Some ((), sample_stamped.objects) ∧
  setTaskInfo 12 700 sample.insertTasks sample_stamped.objects
  = setTaskInfo 12 700 sample.insertTasks sample.objects ∧
  setTaskInfo 9 500 sample.insertTasks sample_stamped.objects
  = Some ((), sample_stamped.objects).
Proof.
  assert (Hrun : setTaskInfo 9 500 sample.insertTasks sample.objects
                 = Some ((), sample_stamped.objects)).
  { vm_compute. reflexivity. }
  split; [exact Hrun|].
  exact (setTaskInfo_restamp 9 12 500 700 _ sample.objects
           sample_stamped.objects Hrun).
Defined.

(** X6.  On an empty map, and on a map whose only key is Replication,
    [setTaskInfo] returns and leaves the heap as it is, whatever the heap
    holds and even if a task under Replication is [nil]. *)
Theorem setTaskInfo_replication_only
    (version : Z) (timestamp : time.Time)
    (insertTasks : gmap Category (list ref))
    (entries : list (Category * list ref)) (h : heap) :
  range_of insertTasks entries →
  map_Forall (λ category _, category = CategoryReplication) insertTasks →
  setTaskInfo_range version timestamp entries h = Some ((), h).
Proof.
  intros Hrange Honly.
  assert (Hrep : ∀ category ts, (category, ts) ∈ entries →
                                category = CategoryReplication).
  { intros category ts Hentry.
    apply (range_of_lookup _ _ _ _ Hrange) in Hentry.
    exact (Honly category ts Hentry). }
  destruct (setTaskInfo_range_outcome version timestamp entries h)
    as [Hsome _].
  destruct Hsome as (h' & -> & Hh').
  { apply Forall_forall. intros [category ts] Hentry Hne.
    by destruct (Hne (Hrep category ts Hentry)). }
  do 2 f_equal. apply map_eq. intros task. rewrite Hh'.
  assert (Hno : listed task entries = false).
  { apply not_true_is_false.
    intros (category & ts & Hin & Hne & _)%listed_spec. eauto. }
  assert (Hnoimm : listed_immediate task entries = false).
  { apply not_true_is_false.
    intros (category & ts & Hin & Hne & _)%listed_immediate_spec. eauto. }
  rewrite Hno, Hnoimm. by destruct (h !! task).
Qed.

Lemma setTaskInfo_replication_only_witness :
  range_of sample_stamped.replicationOnly
           (map_to_list sample_stamped.replicationOnly) ∧
  map_Forall (λ category _, category = CategoryReplication)
             sample_stamped.replicationOnly ∧
  sample.objects !! 99%positive = None ∧
  setTaskInfo 9 500 sample_stamped.replicationOnly sample.objects
  = Some ((), sample.objects).
Proof.
  assert (Hrange : range_of sample_stamped.replicationOnly
                     (map_to_list sample_stamped.replicationOnly)).
  { unfold range_of. reflexivity. }
  assert (Honly : map_Forall (λ category _, category = CategoryReplication)
                    sample_stamped.replicationOnly).
  { apply (bool_decide_eq_true_1 _). vm_compute. reflexivity. }
  split; [exact Hrange|]. split; [exact Honly|]. split; [reflexivity|].
  exact (setTaskInfo_replication_only 9 500 _ _ sample.objects Hrange Honly).
Defined.


(** * Further properties of sync-activity generation *)

Section sync_activity_more.

Variables (now : time.Time) (workflowKey : definition.WorkflowKey).

(** The loop as a partial map over the visited IDs. *)
Lemma convertSyncActivityInfos_range_omap
    (activityInfos : gmap Z persistencespb.ActivityInfo) items :
  convertSyncActivityInfos_range now workflowKey activityInfos items
  = omap (λ item, sync_task_of now workflowKey <$> activityInfos !! item) items.
Proof.
  induction items as [|item items IH]; [done|].
  rewrite convertSyncActivityInfos_range_cons, IH. cbn [omap list_omap].
  by destruct (activityInfos !! item).
Qed.

Lemma convertSyncActivityInfos_range_length
    (activityInfos : gmap Z persistencespb.ActivityInfo) items :
  length (convertSyncActivityInfos_range now workflowKey activityInfos items)
  = length (present_items activityInfos items).
Proof.
  symmetry. eapply Forall2_length.
  apply convertSyncActivityInfos_range_present.
Qed.

Lemma length_filter_all {A} (P : A → Prop) `{∀ x, Decision (P x)} (l : list A) :
  length (filter P l) = length l ↔ Forall P l.
Proof.
  split.
  - intros Hlen. apply Forall_forall. intros x Hx.
    destruct (decide (P x)) as [|Hnot]; [done|].
    pose proof (length_filter_lt P l x Hx Hnot). lia.
  - intros Hall. induction Hall as [|x l Hx Hall IH]; [done|].
    rewrite filter_cons_True by done. cbn. by rewrite IH.
Qed.

End sync_activity_more.

(** X7.  [convertSyncActivityInfos] never appends beyond the capacity it
    reserves with [make(.., 0, len(inputs))]: it returns at most as many
    tasks as there are pending IDs, exactly as many when every pending ID is
    in the snapshot, and an empty slice exactly when none is (an empty
    pending set and an empty snapshot included). *)
Theorem convertSyncActivityInfos_within_capacity
    (now : time.Time) (workflowKey : definition.WorkflowKey)
    (activityInfos : gmap Z persistencespb.ActivityInfo)
    (inputs : gset Z) (items : list Z) :
  range_of_set inputs items →
  let outputs :=
    convertSyncActivityInfos_range now workflowKey activityInfos items in
  (length outputs ≤ size inputs)%nat ∧
  (length outputs = size inputs ↔
   ∀ item, item ∈ inputs → is_Some (activityInfos !! item)) ∧
  (outputs = [] ↔ ∀ item, item ∈ inputs → activityInfos !! item = None).
Proof.
  intros Hitems outputs. subst outputs.
  assert (Hsize : size inputs = length items).
  { unfold range_of_set in Hitems. by rewrite Hitems. }
  assert (Hmem : ∀ item, item ∈ items ↔ item ∈ inputs).
  { intros item. unfold range_of_set in Hitems.
    by rewrite Hitems, elem_of_elements. }
  rewrite convertSyncActivityInfos_range_length, Hsize.
  split; [apply length_filter|]. split.
  - unfold present_items. rewrite length_filter_all, Forall_forall.
    by setoid_rewrite Hmem.
  - rewrite convertSyncActivityInfos_range_omap. split.
    + intros Hnil item Hin. apply Hmem in Hin.
      destruct (activityInfos !! item) as [activityInfo|] eqn:Hitem; [|done].
      exfalso.
      assert (Htask : sync_task_of now workflowKey activityInfo
                ∈ omap (λ item, sync_task_of now workflowKey
                                  <$> activityInfos !! item) items).
      { apply list_elem_of_omap. exists item. by rewrite Hitem. }
      rewrite Hnil in Htask. by apply not_elem_of_nil in Htask.
    + intros Hnone. apply elem_of_nil_inv. intros task Htask.
      apply list_elem_of_omap in Htask as (item & Hin & Htask).
      apply Hmem in Hin. by rewrite (Hnone item Hin) in Htask.
Qed.

Lemma convertSyncActivityInfos_within_capacity_witness :
  range_of_set sample.pendingIDs (elements sample.pendingIDs) ∧
  (length (convertSyncActivityInfos
             77%Z sample.workflowKey sample.activityInfos sample.pendingIDs)
   ≤ size sample.pendingIDs)%nat.
Proof.
  assert (Hitems : range_of_set sample.pendingIDs (elements sample.pendingIDs)).
  { unfold range_of_set. reflexivity. }
  split; [exact Hitems|].
  exact (proj1 (convertSyncActivityInfos_within_capacity
                  77 sample.workflowKey sample.activityInfos
                  sample.pendingIDs _ Hitems)).
Defined.

(** X8.  The order in which [range] visits the pending IDs shows only in the
    order of the result: any two orders give the same tasks, each as many
    times, in a possibly different order. *)
Theorem convertSyncActivityInfos_order
    (now : time.Time) (workflowKey : definition.WorkflowKey)
    (activityInfos : gmap Z persistencespb.ActivityInfo)
    (inputs : gset Z) (items1 items2 : list Z) :
  range_of_set inputs items1 →
  range_of_set inputs items2 →
  convertSyncActivityInfos_range now workflowKey activityInfos items1
  ≡ₚ convertSyncActivityInfos_range now workflowKey activityInfos items2.
Proof.
  unfold range_of_set. intros Hitems1 Hitems2.
  rewrite !convertSyncActivityInfos_range_omap.
  by rewrite Hitems1, Hitems2.
Qed.

Lemma convertSyncActivityInfos_order_witness :
  range_of_set sample.pendingIDs (elements sample.pendingIDs) ∧
  range_of_set sample.pendingIDs (reverse (elements sample.pendingIDs)) ∧
  convertSyncActivityInfos
    77 sample.workflowKey sample.activityInfos sample.pendingIDs
  ≡ₚ convertSyncActivityInfos_range
       77 sample.workflowKey sample.activityInfos
       (reverse (elements sample.pendingIDs)).
Proof.
  assert (Hitems : range_of_set sample.pendingIDs (elements sample.pendingIDs)).
  { unfold range_of_set. reflexivity. }
  assert (Hreverse : range_of_set sample.pendingIDs
                       (reverse (elements sample.pendingIDs))).
  { unfold range_of_set. apply reverse_Permutation. }
  split; [exact Hitems|]. split; [exact Hreverse|].
  exact (convertSyncActivityInfos_order
           77 sample.workflowKey sample.activityInfos sample.pendingIDs
           _ _ Hitems Hreverse).
Defined.

(** X9.  [convertSyncActivityInfos] reads the snapshot at the pending IDs
    only: two snapshots that agree on every pending ID give the same result,
    so activities that are not pending, added, removed or changed, make no
    difference. *)
Theorem convertSyncActivityInfos_reads_pending_only
    (now : time.Time) (workflowKey : definition.WorkflowKey)
    (activityInfos1 activityInfos2 : gmap Z persistencespb.ActivityInfo)
    (inputs : gset Z) (items : list Z) :
  range_of_set inputs items →
  (∀ item, item ∈ inputs → activityInfos1 !! item = activityInfos2 !! item) →
  convertSyncActivityInfos_range now workflowKey activityInfos1 items
  = convertSyncActivityInfos_range now workflowKey activityInfos2 items.
Proof.
  unfold range_of_set. intros Hitems Hagree.
  assert (Hall : Forall (λ item, item ∈ inputs) items).
  { apply Forall_forall. intros item.
    by rewrite Hitems, elem_of_elements. }
  clear Hitems. induction Hall as [|item items Hin _ IH]; [done|].
  by rewrite !convertSyncActivityInfos_range_cons, IH, (Hagree item Hin).
Qed.

Lemma convertSyncActivityInfos_reads_pending_only_witness :
  range_of_set sample.pendingIDs (elements sample.pendingIDs) ∧
  convertSyncActivityInfos
    77 sample.workflowKey sample.activityInfos sample.pendingIDs
  = convertSyncActivityInfos
      77 sample.workflowKey
      (<[6 := {| persistencespb.Version := 8;
                 persistencespb.ScheduleId := 6 |}]> sample.activityInfos)
      sample.pendingIDs.
Proof.
  assert (Hitems : range_of_set sample.pendingIDs (elements sample.pendingIDs)).
  { unfold range_of_set. reflexivity. }
  split; [exact Hitems|].
  apply (convertSyncActivityInfos_reads_pending_only
           77 sample.workflowKey _ _ sample.pendingIDs _ Hitems).
  intros item Hin. rewrite lookup_insert_ne; [done|].
  intros <-. revert Hin. apply (bool_decide_eq_false_1 _).
  vm_compute. reflexivity.
Defined.


(** * Sequences of calls on a [StartChildExecutionTask] *)




(** * The Prometheus configuration of package [metrics] *)

Section slice_facts.

Import slice.

Context {A B : Type}.

Lemma assign_at_middle (assign : B → B) (done rest : list B) (x : B) :
  assign_at (length done) assign (done ++ x :: rest)
  = Some (done ++ assign x :: rest).
Proof.
  unfold assign_at. rewrite list_lookup_middle by done.
  f_equal. rewrite <- (Nat.add_0_r (length done)) at 1.
  by rewrite insert_app_r.
Qed.

(** An indexed loop that fills a slice of zero values, one element per item,
    never writes out of range, and leaves one converted element per item. *)
Lemma range_indexed_fill
    (body : nat → A → list B → option (list B)) (convert : A → B) (zero : B)
    (items : list A) (done : list B) :
  (∀ item done' rest,
     body (length done') item (done' ++ zero :: rest)
     = Some (done' ++ convert item :: rest)) →
  range_indexed (length done) items body
    (done ++ replicate (length items) zero)
  = Some (done ++ (convert <$> items)).
Proof.
  intros Hbody. revert done.
  induction items as [|item items IH]; intros done.
  - cbn. by rewrite !app_nil_r.
  - cbn [range_indexed length replicate]. rewrite Hbody. cbn.
    specialize (IH (done ++ [convert item])).
    rewrite length_app, Nat.add_1_r, <- !app_assoc in IH. exact IH.
Qed.

End slice_facts.

Section prometheus_config.

Import metrics.

Lemma histogramBoundariesToHistogramObjectives_fmap boundaries :
  histogramBoundariesToHistogramObjectives boundaries
  = prometheus.NewHistogramObjective <$> boundaries.
Proof.
  unfold histogramBoundariesToHistogramObjectives.
  assert (Hacc : ∀ acc,
    foldl (λ result value, result ++ [ {| prometheus.Upper := value |} ])
          acc boundaries
    = acc ++ (prometheus.NewHistogramObjective <$> boundaries)).
  { induction boundaries as [|value boundaries IH]; intros acc; cbn.
    - by rewrite app_nil_r.
    - by rewrite IH, <- app_assoc. }
  apply (Hacc []).
Qed.

Lemma buildHistogramBuckets_buckets config :
  DefaultHistogramBuckets config ≠ [] →
  buildHistogramBuckets config
  = Some ((λ item, {| prometheus.Upper := Upper item |})
            <$> DefaultHistogramBuckets config).
Proof.
  intros Hne. unfold buildHistogramBuckets.
  rewrite decide_True by (destruct (DefaultHistogramBuckets config); [done|cbn; lia]).
  apply (range_indexed_fill _
           (λ item, {| prometheus.Upper := Upper item |})
           {| prometheus.Upper := 0%float |}
           (DefaultHistogramBuckets config) []).
  intros item done rest. by rewrite assign_at_middle.
Qed.

Lemma histogramBoundariesToHistogramObjectives_Upper boundaries :
  prometheus.Upper <$> histogramBoundariesToHistogramObjectives boundaries
  = boundaries.
Proof.
  rewrite histogramBoundariesToHistogramObjectives_fmap.
  rewrite <- list_fmap_compose. apply list_fmap_id.
Qed.

(** [buildHistogramBuckets] returns, and what it returns. *)
Lemma buildHistogramBuckets_run config :
  ∃ result,
    buildHistogramBuckets config = Some result ∧
    prometheus.Upper <$> result
    = match DefaultHistogramBuckets config with
      | [] => DefaultHistogramBoundaries config
      | _ :: _ => Upper <$> DefaultHistogramBuckets config
      end.
Proof.
  destruct (DefaultHistogramBuckets config) as [|bucket buckets] eqn:Hbuckets.
  - unfold buildHistogramBuckets. rewrite Hbuckets. cbn [length].
    rewrite decide_False by lia.
    destruct (DefaultHistogramBoundaries config) as [|boundary boundaries]
      eqn:Hboundaries.
    + cbn [length]. rewrite decide_False by lia. by exists [].
    + rewrite decide_True by (cbn; lia). eexists. split; [done|].
      apply histogramBoundariesToHistogramObjectives_Upper.
  - rewrite buildHistogramBuckets_buckets by (by rewrite Hbuckets).
    eexists. split; [done|]. rewrite Hbuckets.
    by rewrite <- list_fmap_compose.
Qed.

(** [convertPrometheusConfigToTally] returns, and what it returns. *)
Lemma convertPrometheusConfigToTally_run config :
  ∃ buckets,
    buildHistogramBuckets config = Some buckets ∧
    convertPrometheusConfigToTally config
    = Some {| prometheus.HandlerPath := HandlerPath config;
              prometheus.ListenNetwork := ListenNetwork config;
              prometheus.ListenAddress := ListenAddress config;
              prometheus.TimerType := "histogram";
              prometheus.DefaultHistogramBuckets := buckets;
              prometheus.DefaultSummaryObjectives :=
                (λ item, {| prometheus.Percentile := Percentile item;
                            prometheus.AllowedError := AllowedError item |})
                  <$> DefaultSummaryObjectives config;
              prometheus.OnError := OnError config |}.
Proof.
  destruct (buildHistogramBuckets_run config) as (buckets & Hbuckets & _).
  exists buckets. split; [exact Hbuckets|].
  unfold convertPrometheusConfigToTally, make_SummaryObjectives.
  match goal with
  | |- context [slice.range_indexed 0 _ ?body _] =>
      pose proof (range_indexed_fill body
        (λ item, {| prometheus.Percentile := Percentile item;
                    prometheus.AllowedError := AllowedError item |})
        {| prometheus.Percentile := 0%float;
           prometheus.AllowedError := 0%float |}
        (DefaultSummaryObjectives config) []) as Hfill
  end.
  cbn [length app] in Hfill. rewrite Hfill.
  - cbn [mbind option_bind]. rewrite Hbuckets. reflexivity.
  - intros item done rest.
    rewrite assign_at_middle. cbn [mbind option_bind].
    by rewrite assign_at_middle.
Qed.

End prometheus_config.

Import metrics.

(** X10.  [histogramBoundariesToHistogramObjectives] returns one objective per
    boundary, in order, with the boundary as its upper bound: reading the
    upper bounds back gives the boundaries, and no boundary gives no
    objective. *)
Theorem histogramBoundariesToHistogramObjectives_uppers
    (boundaries : list float64) :
  prometheus.Upper <$> histogramBoundariesToHistogramObjectives boundaries
  = boundaries ∧
  length (histogramBoundariesToHistogramObjectives boundaries)
  = length boundaries ∧
  (histogramBoundariesToHistogramObjectives boundaries = [] ↔ boundaries = []).
Proof.
  split; [apply histogramBoundariesToHistogramObjectives_Upper|].
  rewrite histogramBoundariesToHistogramObjectives_fmap, length_fmap.
  split; [done|]. by destruct boundaries.
Qed.

(** X11.  [buildHistogramBuckets] never writes out of range, and it prefers
    the deprecated [DefaultHistogramBuckets]: if there are any, the result
    has their upper bounds and [DefaultHistogramBoundaries] is not looked at;
    otherwise it has the boundaries as upper bounds; with neither it is
    empty. *)
Theorem buildHistogramBuckets_precedence (config : PrometheusConfig) :
  ∃ result,
    buildHistogramBuckets config = Some result ∧
    prometheus.Upper <$> result
    = match DefaultHistogramBuckets config with
      | [] => DefaultHistogramBoundaries config
      | _ :: _ => Upper <$> DefaultHistogramBuckets config
      end.
Proof. exact (buildHistogramBuckets_run config). Qed.

(** X12.  [convertPrometheusConfigToTally] never writes out of range.  Its
    result has [TimerType] "histogram" whatever the deprecated [TimerType]
    of the configuration says, the handler path, network, address and
    [OnError] of the configuration, one summary objective per configured
    one, in order and with the same percentile and allowed error, and the
    histogram buckets of [buildHistogramBuckets]. *)
Theorem convertPrometheusConfigToTally_fields (config : PrometheusConfig) :
  ∃ tallyConfig buckets,
    convertPrometheusConfigToTally config = Some tallyConfig ∧
    prometheus.TimerType tallyConfig = "histogram" ∧
    prometheus.HandlerPath tallyConfig = HandlerPath config ∧
    prometheus.ListenNetwork tallyConfig = ListenNetwork config ∧
    prometheus.ListenAddress tallyConfig = ListenAddress config ∧
    prometheus.OnError tallyConfig = OnError config ∧
    Forall2 (λ item objective,
               prometheus.Percentile objective = Percentile item ∧
               prometheus.AllowedError objective = AllowedError item)
            (DefaultSummaryObjectives config)
            (prometheus.DefaultSummaryObjectives tallyConfig) ∧
    buildHistogramBuckets config = Some buckets ∧
    prometheus.DefaultHistogramBuckets tallyConfig = buckets.
Proof.
  destruct (convertPrometheusConfigToTally_run config)
    as (buckets & Hbuckets & Hconvert).
  eexists _, buckets. split; [exact Hconvert|]. cbn.
  repeat (split; [done|]). split; [|done].
  clear. induction (DefaultSummaryObjectives config) as [|item items IH];
    cbn; constructor; [done|exact IH].
Qed.


(** * Building scopes and reporters *)

Section reporters_facts.

Context `{Collaborators}.

Lemma bind_ret_l {A B : Type} (a : A) (k : A → Call B) : bind (ret a) k = k a.
Proof. unfold bind, ret. by destruct (k a). Qed.

Lemma bind_Returned_inv {A B : Type} (m : Call A) (k : A → Call B) b log :
  bind m k = Returned b log →
  ∃ a log1 log2,
    m = Returned a log1 ∧ k a = Returned b log2 ∧ log = log1 ++ log2.
Proof.
  unfold bind. destruct m as [a log1| |]; [|done|done].
  destruct (k a) as [b' log2| |] eqn:Hk; [|done|done].
  intros [= -> <-]. by exists a, log1, log2.
Qed.

(** The three scope builders and [NewScope] return no error value: when they
    return, they return a scope. *)
Lemma NewTallyReporterFromConfig_no_error c reporter err log :
  NewTallyReporterFromConfig c = Returned (reporter, err) log →
  err = None ∧ is_Some reporter.
Proof.
  unfold NewTallyReporterFromConfig.
  intros (scope & log1 & log2 & _ & Hret & _)%bind_Returned_inv.
  injection Hret as <- <- _. eauto.
Qed.

End reporters_facts.

(** X14.  With a Prometheus configuration whose [Framework] is set to
    anything but "tally" and "opentelemetry", [InitMetricsReporter] builds
    nothing: it logs the error and returns it with a [nil] reporter,
    whatever the M3, statsd and client configurations are. *)
Theorem InitMetricsReporter_unsupported_framework
    `{Collaborators} (c : Config) (prometheusConfig : PrometheusConfig) :
  Prometheus c = Some prometheusConfig →
  Framework prometheusConfig ≠ "" →
  Framework prometheusConfig ≠ FrameworkTally →
  Framework prometheusConfig ≠ FrameworkOpentelemetry →
  let err :=
    fmt_Errorf "unsupported framework type specified in config: %q"
               [Framework prometheusConfig] in
  InitMetricsReporter c
  = Returned (None, Some err)
      [ {| level := LevelError; msg := error_Error err; tags := [] |} ].
Proof.
  intros Hprometheus Hset Htally Hotel err.
  unfold InitMetricsReporter. rewrite Hprometheus.
  rewrite decide_True
    by (destruct (Framework prometheusConfig); [done|cbn; lia]).
  unfold InitReporterFromPrometheusConfig.
  by rewrite !decide_False.
Qed.

Lemma InitMetricsReporter_unsupported_framework_witness :
  let c :=
    sample_metrics.config (Some ()) (Some sample_metrics.statsdConfig)
      (Some sample_metrics.unknownFramework) in
  @InitMetricsReporter sample_metrics.recording c
  = Returned
      (None,
       Some "unsupported framework type specified in config: %q prometheus")
      [ {| level := LevelError;
           msg := "unsupported framework type specified in config: %q prometheus";
           tags := [] |} ].
Proof.
  intros c.
  apply (@InitMetricsReporter_unsupported_framework
           sample_metrics.recording c sample_metrics.unknownFramework);
    [reflexivity|discriminate|discriminate|discriminate].
Defined.

(** X15.  [InitMetricsReporter] returns an error on the framework path only:
    without a Prometheus configuration, or with its [Framework] empty or
    "tally", every return carries a reporter and a [nil] error (a failing
    constructor ends in [logger.Fatal], not in an error). *)
Theorem InitMetricsReporter_error_only_from_framework
    `{Collaborators} (c : Config) reporter err log :
  (∀ prometheusConfig,
     Prometheus c = Some prometheusConfig →
     Framework prometheusConfig = "" ∨
     Framework prometheusConfig = FrameworkTally) →
  InitMetricsReporter c = Returned (reporter, err) log →
  err = None ∧ is_Some reporter.
Proof.
  intros Hframework. unfold InitMetricsReporter.
  destruct (Prometheus c) as [prometheusConfig|];
    [|apply NewTallyReporterFromConfig_no_error].
  destruct (Hframework prometheusConfig eq_refl) as [Hempty|Htally].
  - rewrite Hempty. cbn [String.length]. rewrite decide_False by lia.
    apply NewTallyReporterFromConfig_no_error.
  - rewrite Htally. rewrite decide_True by (cbn; lia).
    unfold InitReporterFromPrometheusConfig. rewrite Htally.
    rewrite decide_True by done.
    intros (r & log1 & log2 & _ & Hret & _)%bind_Returned_inv.
    injection Hret as <- <- _. eauto.
Qed.

Lemma InitMetricsReporter_error_only_from_framework_witness :
  let c :=
    sample_metrics.config None None (Some sample_metrics.prometheusConfig) in
  ∃ reporter log,
    @InitMetricsReporter sample_metrics.recording c
    = Returned (reporter, None) log ∧ is_Some reporter.
Proof.
  intros c.
  destruct (@InitMetricsReporter sample_metrics.recording c)
    as [[reporter err] log| |] eqn:Hrun;
    [|vm_compute in Hrun; discriminate|vm_compute in Hrun; discriminate].
  destruct (@InitMetricsReporter_error_only_from_framework
              sample_metrics.recording c reporter err log) as [-> Hsome].
  - intros prometheusConfig [= <-]. by left.
  - exact Hrun.
  - by exists reporter, log.
Defined.

(** X16.  The priority of [NewScope] is m3 > statsd > prometheus, and only one
    of them is used: with an M3 configuration the outcome does not depend on
    the statsd and Prometheus configurations, and without one but with a
    statsd configuration it does not depend on the Prometheus
    configuration. *)
Theorem NewScope_priority `{Collaborators} (c1 c2 : Config) :
  ClientConfig_ c1 = ClientConfig_ c2 →
  M3 c1 = M3 c2 →
  (is_Some (M3 c1) ∨ (Statsd c1 = Statsd c2 ∧ is_Some (Statsd c1))) →
  NewScope c1 = NewScope c2.
Proof.
  intros Hclient Hm3 Hused. unfold NewScope. rewrite <- Hm3.
  destruct (M3 c1) as [m3|] eqn:Hm3c1.
  - unfold newM3Scope. by rewrite <- Hm3, Hm3c1, Hclient.
  - destruct Hused as [[? [=]]|[Hstatsd [statsdConfig Hset]]].
    rewrite <- Hstatsd, Hset. unfold newStatsdScope.
    by rewrite <- Hstatsd, Hset, Hclient.
Qed.

Lemma NewScope_priority_witness :
  let c1 :=
    sample_metrics.config (Some ()) (Some sample_metrics.statsdConfig)
      (Some sample_metrics.prometheusConfig) in
  let c2 := sample_metrics.config (Some ()) None None in
  @NewScope sample_metrics.recording c1 = @NewScope sample_metrics.recording c2.
Proof.
  intros c1 c2.
  apply (@NewScope_priority sample_metrics.recording c1 c2);
    [reflexivity|reflexivity|left; by eexists].
Defined.

(** X17.  [NewScope] falls back to [tally.NoopScope], logging nothing, when
    nothing is configured, and also when the statsd configuration comes first
    and has an empty [HostPort]: a Prometheus configuration is then not
    used. *)
Theorem NewScope_noop `{Collaborators} (c : Config) :
  M3 c = None →
  (Statsd c = None ∧ Prometheus c = None) ∨
  (∃ statsdConfig,
     Statsd c = Some statsdConfig ∧ StatsdConfig.HostPort statsdConfig = "") →
  NewScope c = Returned NoopScope [].
Proof.
  intros Hm3 Hcase. unfold NewScope. rewrite Hm3.
  destruct Hcase as [[-> ->]|(statsdConfig & Hstatsd & Hhost)]; [done|].
  rewrite Hstatsd. unfold newStatsdScope. rewrite Hstatsd.
  cbn [deref]. rewrite bind_ret_l. by rewrite Hhost.
Qed.

Lemma NewScope_noop_witness :
  let c :=
    sample_metrics.config None (Some sample_metrics.statsdConfig)
      (Some sample_metrics.prometheusConfig) in
  @NewScope sample_metrics.recording c = Returned None [].
Proof.
  intros c.
  apply (@NewScope_noop sample_metrics.recording c); [reflexivity|].
  right. exists sample_metrics.statsdConfig. by split.
Defined.


Section reporters_more.

Context `{Collaborators}.

Lemma bind_ret_r {A : Type} (m : Call A) : bind m ret = m.
Proof. unfold bind, ret. destruct m; [|done|done]. by rewrite app_nil_r. Qed.

Lemma withDefaultHistogramBuckets_buckets (config : prometheus.Configuration) :
  prometheus.DefaultHistogramBuckets (withDefaultHistogramBuckets config)
  = match prometheus.DefaultHistogramBuckets config with
    | [] => histogramBoundariesToHistogramObjectives defaultHistogramBoundaries
    | _ :: _ => prometheus.DefaultHistogramBuckets config
    end.
Proof.
  unfold withDefaultHistogramBuckets.
  destruct (prometheus.DefaultHistogramBuckets config) eqn:Hbuckets.
  - by rewrite decide_True.
  - rewrite decide_False by done. by rewrite Hbuckets.
Qed.

End reporters_more.



(** X13.  The histogram buckets that reach the Prometheus reporter are never
    empty.  [convertPrometheusConfigToTally] followed by the defaulting that
    [newPrometheusScope] starts with gives, as upper bounds: those of the
    deprecated [DefaultHistogramBuckets] if there are any; else the
    configured [DefaultHistogramBoundaries] if there are any; else the
    nineteen default boundaries. *)
Theorem Prometheus_effective_buckets
    `{Collaborators} (config : PrometheusConfig) :
  ∃ tallyConfig,
    convertPrometheusConfigToTally config = Some tallyConfig ∧
    prometheus.Upper
      <$> prometheus.DefaultHistogramBuckets
            (withDefaultHistogramBuckets tallyConfig)
    = match DefaultHistogramBuckets config, DefaultHistogramBoundaries config with
      | _ :: _, _ => Upper <$> DefaultHistogramBuckets config
      | [], _ :: _ => DefaultHistogramBoundaries config
      | [], [] => defaultHistogramBoundaries
      end ∧
    prometheus.DefaultHistogramBuckets (withDefaultHistogramBuckets tallyConfig)
    ≠ [] ∧
    length defaultHistogramBoundaries = 19%nat.
Proof.
  destruct (convertPrometheusConfigToTally_run config)
    as (buckets & Hbuild & Hconvert).
  destruct (buildHistogramBuckets_run config)
    as (buckets' & Hbuild' & Huppers).
  rewrite Hbuild in Hbuild'. injection Hbuild' as <-.
  eexists. split; [exact Hconvert|].
  rewrite withDefaultHistogramBuckets_buckets.
  cbn [prometheus.DefaultHistogramBuckets].
  assert (Hdefault :
    histogramBoundariesToHistogramObjectives defaultHistogramBoundaries ≠ []).
  { by rewrite histogramBoundariesToHistogramObjectives_fmap. }
  split; [|split; [|done]].
  - destruct (DefaultHistogramBuckets config) as [|bucket configured].
    + destruct (DefaultHistogramBoundaries config) as [|boundary boundaries].
      * destruct buckets; [|done].
        apply histogramBoundariesToHistogramObjectives_Upper.
      * destruct buckets; [done|exact Huppers].
    + destruct buckets; [done|exact Huppers].
  - destruct buckets as [|bucket' buckets']; [exact Hdefault|done].
Qed.


(** X18.  [NewScope] never panics, whichever of the three pointers are
    [nil].  It ends the process only through [logger.Fatal], after a
    constructor returned an error.  A scope it returns is [tally.NoopScope]
    or a root scope with the tags and the prefix of the client configuration,
    the default histogram boundaries as its default buckets and an interval
    of one second, whatever boundaries the Prometheus configuration
    names. *)
Theorem NewScope_outcome `{Collaborators} (c : Config) :
  match NewScope c with
  | Returned scope log =>
      (scope = NoopScope ∨
       ∃ options,
         scope = tally_NewRootScope options second ∧
         ScopeOptions.Tags options = ClientConfig.Tags (ClientConfig_ c) ∧
         ScopeOptions.Prefix options = ClientConfig.Prefix (ClientConfig_ c) ∧
         ScopeOptions.DefaultBuckets options = defaultHistogramBoundaries) ∧
      (log = [] ∨
       logger_Fatal_exits = false ∧
       ∃ entry, log = [entry] ∧ level entry = LevelFatal)
  | Exited log =>
      logger_Fatal_exits = true ∧
      ∃ entry, log = [entry] ∧ level entry = LevelFatal
  | Panicked _ => False
  end.
Proof.
  set (rooted := λ scope : Scope,
    ∃ options,
      scope = tally_NewRootScope options second ∧
      ScopeOptions.Tags options = ClientConfig.Tags (ClientConfig_ c) ∧
      ScopeOptions.Prefix options = ClientConfig.Prefix (ClientConfig_ c) ∧
      ScopeOptions.DefaultBuckets options = defaultHistogramBoundaries).
  set (good := λ outcome : Call Scope,
    match outcome with
    | Returned scope log =>
        (scope = NoopScope ∨ rooted scope) ∧
        (log = [] ∨
         logger_Fatal_exits = false ∧
         ∃ entry, log = [entry] ∧ level entry = LevelFatal)
    | Exited log =>
        logger_Fatal_exits = true ∧
        ∃ entry, log = [entry] ∧ level entry = LevelFatal
    | Panicked _ => False
    end).
  change (good (NewScope c)).
  assert (Hfatal : ∀ (err : option error) text (scope : Scope),
    rooted scope →
    good (bind (match err with
                | Some err => logger_Fatal text [tag_Error err]
                | None => ret ()
                end) (λ _, ret scope))).
  { intros err text scope Hrooted.
    unfold good, bind, ret, logger_Fatal. destruct err as [err|].
    - destruct logger_Fatal_exits eqn:Hexits; cbn.
      + split; [done|]. by eexists.
      + split; [by right|]. right. split; [done|]. by eexists.
    - cbn. split; [by right|]. by left. }
  assert (Hnoop : good (ret NoopScope)).
  { unfold good, ret. split; by left. }
  unfold NewScope.
  destruct (M3 c) as [m3|] eqn:Hm3.
  - unfold newM3Scope. destruct (m3_NewReporter (M3 c)) as [reporter err].
    apply Hfatal. by eexists.
  - destruct (Statsd c) as [statsdConfig|] eqn:Hstatsd.
    + unfold newStatsdScope. rewrite Hstatsd. cbn [deref]. rewrite bind_ret_l.
      destruct (decide _) as [_|_]; [exact Hnoop|].
      destruct (statsd_NewBufferedClient _ _ _ _) as [statter err].
      apply Hfatal. by eexists.
    + destruct (Prometheus c) as [prometheusConfig|]; [|exact Hnoop].
      destruct (convertPrometheusConfigToTally_run prometheusConfig)
        as (buckets & _ & ->).
      cbn [of_option]. rewrite bind_ret_l. unfold newPrometheusScope.
      destruct (prometheus_NewReporter _) as [reporter err].
      apply Hfatal. by eexists.
Qed.

(** X20.  Once the Prometheus configuration names a framework,
    [InitMetricsReporter] takes the framework path and the M3 and statsd
    configurations are ignored: two configurations with the same client and
    Prometheus parts have the same outcome. *)
Theorem InitMetricsReporter_framework_first
    `{Collaborators} (c1 c2 : Config) (prometheusConfig : PrometheusConfig) :
  ClientConfig_ c1 = ClientConfig_ c2 →
  Prometheus c1 = Some prometheusConfig →
  Prometheus c2 = Some prometheusConfig →
  Framework prometheusConfig ≠ "" →
  InitMetricsReporter c1 = InitMetricsReporter c2 ∧
  InitMetricsReporter c1
  = InitReporterFromPrometheusConfig prometheusConfig (ClientConfig_ c1).
Proof.
  intros Hclient Hprometheus1 Hprometheus2 Hset.
  assert (Hlen : (0 < String.length (Framework prometheusConfig))%nat)
    by (destruct (Framework prometheusConfig); [done|cbn; lia]).
  unfold InitMetricsReporter. rewrite Hprometheus1, Hprometheus2.
  destruct (decide _) as [_|Hempty]; [|done].
  split; [by rewrite Hclient|done].
Qed.

Lemma InitMetricsReporter_framework_first_witness :
  let c1 :=
    sample_metrics.config (Some ()) (Some sample_metrics.statsdConfig)
      (Some sample_metrics.unknownFramework) in
  let c2 :=
    sample_metrics.config None None (Some sample_metrics.unknownFramework) in
  @InitMetricsReporter sample_metrics.recording c1
  = @InitMetricsReporter sample_metrics.recording c2.
Proof.
  intros c1 c2.
  apply (@InitMetricsReporter_framework_first
           sample_metrics.recording c1 c2 sample_metrics.unknownFramework);
    [reflexivity|reflexivity|reflexivity|discriminate].
Defined.
